(** * Gnoke Manifest: the storage engine and the booking allocator

    A shallow embedding of [scripts/db-core.js] (the [DB] module) and of the
    data-access modules [DBConfig], [DBHistory] and [DBBooking], with the
    properties of the engine's transaction and persistence contract, of the
    seat-capacity guard and of the booking protocol.

    JavaScript values are modelled as follows: SQLite INTEGER columns and
    JavaScript integers are [Z]; a string is a [string] whose characters are
    read as code units below 256; [null] is [None]; an object with a fixed
    shape is a record; a thrown exception is the [Throw] outcome of the
    engine monad [M], which threads the module's variables ([_db], [_SQL],
    [_dirty]) and the browser environment (IndexedDB, the seed file, the
    console) through every call. *)

From Stdlib Require Import ZArith List String Ascii Bool Lia DecimalString.
From Stdlib Require Import Sorted Permutation.
Import ListNotations.

Local Open Scope string_scope.
Local Open Scope Z_scope.

Set Implicit Arguments.

(* ------------------------------------------------------------------------ *)
(** ** JavaScript strings *)

Module Js.

(** [String(n)] for an integer [n]. *)
Definition String_ (n : Z) : string :=
  NilZero.string_of_int (Z.to_int n).

Fixpoint repeat_to (n : nat) (pad cur : string) : string :=
  match n with
  | O => ""
  | S n' =>
      match cur with
      | String c rest => String c (repeat_to n' pad rest)
      | EmptyString =>
          match pad with
          | String c rest => String c (repeat_to n' pad rest)
          | EmptyString => ""
          end
      end
  end.

(** [s.padStart(targetLength, padString)] *)
Definition padStart (targetLength : nat) (padString : string) (s : string)
  : string :=
  if (targetLength <=? String.length s)%nat then s
  else repeat_to (targetLength - String.length s) padString padString ++ s.

(** [s.substring(indexStart, indexEnd)]: both indices are clamped to the
    length, and swapped when the first is the larger. *)
Definition substring (indexStart indexEnd : nat) (s : string) : string :=
  let len := String.length s in
  let a := Nat.min indexStart len in
  let b := Nat.min indexEnd len in
  String.substring (Nat.min a b) (Nat.max a b - Nat.min a b) s.

Definition upper_char (c : ascii) : ascii :=
  let n := nat_of_ascii c in
  if ((97 <=? n) && (n <=? 122))%nat then ascii_of_nat (n - 32) else c.

(** [s.toUpperCase()], on ASCII text (the only text it is applied to). *)
Fixpoint toUpperCase (s : string) : string :=
  match s with
  | EmptyString => EmptyString
  | String c rest => String (upper_char c) (toUpperCase rest)
  end.

(** White space and line terminators below code unit 256. *)
Definition is_space (c : ascii) : bool :=
  let n := nat_of_ascii c in
  ((9 <=? n) && (n <=? 13) || (n =? 32) || (n =? 160))%nat.

Fixpoint trimStart (s : string) : string :=
  match s with
  | EmptyString => EmptyString
  | String c rest => if is_space c then trimStart rest else s
  end.

Fixpoint rev_append (s acc : string) : string :=
  match s with
  | EmptyString => acc
  | String c rest => rev_append rest (String c acc)
  end.

Definition rev (s : string) : string := rev_append s "".

(** [s.trim()] *)
Definition trim (s : string) : string :=
  rev (trimStart (rev (trimStart s))).

(** [s.includes(searchString)] *)
Fixpoint includes (s searchString : string) : bool :=
  String.prefix searchString s
  || match s with
     | EmptyString => false
     | String _ rest => includes rest searchString
     end.

End Js.

(* ------------------------------------------------------------------------ *)
(** ** Booking codes ([generateBookingCode], db-core.js) *)

Module BookingCode.

(** What [new Date()] is asked for: [getFullYear()], [getMonth()]
    (0 to 11) and [getDate()]. *)
Record Date := { getFullYear : Z; getMonth : Z; getDate : Z }.

Definition digit36 (d : nat) : ascii :=
  if (d <? 10)%nat then ascii_of_nat (48 + d) else ascii_of_nat (87 + d).

Fixpoint digits36 (ds : list nat) : string :=
  match ds with
  | [] => ""
  | d :: rest => String (digit36 d) (digits36 rest)
  end.

(** The random source.  [Math.random()] is a number in [0, 1); its
    radix-36 rendering is ["0"] for zero and otherwise ["0."] followed by
    the digits of the fraction.  A draw is given by these digits (each
    below 36): [[18]] is 0.5, [[]] is 0. *)
Definition toString36 (fraction : list nat) : string :=
  match fraction with
  | [] => "0"
  | _ => "0." ++ digits36 fraction
  end.

(** The token after the second dash:
    [Math.random().toString(36).substring(2, 6).toUpperCase()] *)
Definition token (random : list nat) : string :=
  Js.toUpperCase (Js.substring 2 6 (toString36 random)).

Definition generateBookingCode (date : Date) (random : list nat) : string :=
  let y := Js.String_ (getFullYear date) in
  let m := Js.padStart 2 "0" (Js.String_ (getMonth date + 1)) in
  let d := Js.padStart 2 "0" (Js.String_ (getDate date)) in
  let rand := token random in
  "TRP-" ++ y ++ m ++ d ++ "-" ++ rand.

End BookingCode.

(* ------------------------------------------------------------------------ *)
(** ** The database image

    The tables are those the statements of the data-access modules name,
    with the columns these statements read and write.  A table is the list
    of its rows in rowid order. *)

Record Place := {
  place_id : Z; place_name : string; place_state_id : option Z }.

Record Vehicle := {
  vehicle_id : Z; vehicle_type : string; capacity : Z }.

Record Route := {
  route_id : Z; departure_id : Z; destination_id : Z; route_vehicle_id : Z;
  price_ac : option Z; price_no_ac : option Z }.

Record Driver := {
  driver_id : Z; driver_name : string; driver_phone : string;
  driver_vehicle_no : string }.

Record Trip := {
  trip_id : Z; booking_code : string; trip_route_id : Z; trip_driver_id : Z;
  trip_vehicle_no : string; has_ac : Z; booked_at : string }.

Record Passenger := {
  passenger_id : Z; passenger_trip_id : Z; passenger_name : string;
  passenger_phone : string; gender : string }.

Record Tables := {
  places : list Place;
  vehicles : list Vehicle;
  routes : list Route;
  drivers : list Driver;
  trips : list Trip;
  passengers : list Passenger }.

(** The bytes of an exported image are identified with the tables they
    hold: [export] and [new SQL.Database(bytes)] are sql.js's, and inverse
    to each other. *)
Definition Image := Tables.

Definition with_routes (t : Tables) (l : list Route) : Tables :=
  {| places := places t; vehicles := vehicles t; routes := l;
     drivers := drivers t; trips := trips t; passengers := passengers t |}.

Definition with_drivers (t : Tables) (l : list Driver) : Tables :=
  {| places := places t; vehicles := vehicles t; routes := routes t;
     drivers := l; trips := trips t; passengers := passengers t |}.

Definition with_trips (t : Tables) (l : list Trip) : Tables :=
  {| places := places t; vehicles := vehicles t; routes := routes t;
     drivers := drivers t; trips := l; passengers := passengers t |}.

Definition with_passengers (t : Tables) (l : list Passenger) : Tables :=
  {| places := places t; vehicles := vehicles t; routes := routes t;
     drivers := drivers t; trips := trips t; passengers := l |}.

(** The rowid SQLite gives to an inserted row: one more than the largest
    in the table. *)
Definition next_rowid (ids : list Z) : Z := fold_right Z.max 0 ids + 1.

(** [COUNT] of the rows a predicate keeps. *)
Definition count {A} (p : A -> bool) (l : list A) : Z :=
  Z.of_nat (List.length (filter p l)).

(* ------------------------------------------------------------------------ *)
(** ** Statements

    One constructor for each INSERT, UPDATE and DELETE text of the modules
    embedded here, applied to its bound parameters. *)

Inductive Stmt :=
  (** [UPDATE routes SET price_ac = ?, price_no_ac = ? WHERE id = ?] *)
| UpdateRoutePrices (priceAc priceNoAc : option Z) (id : Z)
  (** [INSERT INTO routes (departure_id, destination_id, vehicle_id,
      price_ac, price_no_ac) VALUES (?, ?, ?, ?, ?)] *)
| InsertRoute (depId destId vehicleId : Z) (priceAc priceNoAc : option Z)
  (** [UPDATE drivers SET name = ?, vehicle_no = ? WHERE id = ?] *)
| UpdateDriver (name vehicleNo : string) (id : Z)
  (** [INSERT INTO drivers (name, phone, vehicle_no) VALUES (?, ?, ?)] *)
| InsertDriver (name phone vehicleNo : string)
  (** [INSERT INTO trips (booking_code, route_id, driver_id, vehicle_no,
      has_ac, booked_at) VALUES (?, ?, ?, ?, ?, datetime('now','localtime'))] *)
| InsertTrip (bookingCode : string) (routeId driverId : Z)
    (vehicleNo : string) (hasAc : Z)
  (** [INSERT INTO passengers (trip_id, name, phone, gender)
      VALUES (?, ?, ?, ?)] *)
| InsertPassenger (tripId : Z) (name phone gender : string)
  (** [DELETE FROM passengers WHERE id = ?] *)
| DeletePassenger (passengerId : Z)
  (** [DELETE FROM passengers WHERE trip_id = ?] *)
| DeletePassengersOfTrip (tripId : Z)
  (** [DELETE FROM trips WHERE id = ?] *)
| DeleteTrip (tripId : Z).

(** What [UPDATE routes SET price_ac = ?, price_no_ac = ? WHERE id = ?]
    makes of a row. *)
Definition repriced (pa pn : option Z) (id_ : Z) (r : Route) : Route :=
  if route_id r =? id_ then
    {| route_id := route_id r; departure_id := departure_id r;
       destination_id := destination_id r;
       route_vehicle_id := route_vehicle_id r;
       price_ac := pa; price_no_ac := pn |}
  else r.

(** What [UPDATE drivers SET name = ?, vehicle_no = ? WHERE id = ?] makes
    of a row. *)
Definition renamed (name vehicleNo : string) (id_ : Z) (d : Driver) : Driver :=
  if driver_id d =? id_ then
    {| driver_id := driver_id d; driver_name := name;
       driver_phone := driver_phone d; driver_vehicle_no := vehicleNo |}
  else d.

(** What a statement does to the tables once its checks have passed: the
    new tables, the number of rows changed and, for an INSERT, the new
    rowid.  [now] is [datetime('now','localtime')]. *)
Definition apply_stmt (now : string) (s : Stmt) (t : Tables)
  : Tables * Z * option Z :=
  match s with
  | UpdateRoutePrices pa pn id =>
      (with_routes t (map (repriced pa pn id) (routes t)),
       count (fun r => route_id r =? id) (routes t), None)
  | InsertRoute dep dest veh pa pn =>
      let id := next_rowid (map route_id (routes t)) in
      (with_routes t
         (routes t ++
            [{| route_id := id; departure_id := dep; destination_id := dest;
                route_vehicle_id := veh; price_ac := pa; price_no_ac := pn |}]),
       1, Some id)
  | UpdateDriver name vehicleNo id =>
      (with_drivers t (map (renamed name vehicleNo id) (drivers t)),
       count (fun d => driver_id d =? id) (drivers t), None)
  | InsertDriver name phone vehicleNo =>
      let id := next_rowid (map driver_id (drivers t)) in
      (with_drivers t
         (drivers t ++
            [{| driver_id := id; driver_name := name; driver_phone := phone;
                driver_vehicle_no := vehicleNo |}]),
       1, Some id)
  | InsertTrip code routeId driverId vehicleNo hasAc =>
      let id := next_rowid (map trip_id (trips t)) in
      (with_trips t
         (trips t ++
            [{| trip_id := id; booking_code := code; trip_route_id := routeId;
                trip_driver_id := driverId; trip_vehicle_no := vehicleNo;
                has_ac := hasAc; booked_at := now |}]),
       1, Some id)
  | InsertPassenger tripId name phone gender_ =>
      let id := next_rowid (map passenger_id (passengers t)) in
      (with_passengers t
         (passengers t ++
            [{| passenger_id := id; passenger_trip_id := tripId;
                passenger_name := name; passenger_phone := phone;
                gender := gender_ |}]),
       1, Some id)
  | DeletePassenger id =>
      (with_passengers t
         (filter (fun p => negb (passenger_id p =? id)) (passengers t)),
       count (fun p => passenger_id p =? id) (passengers t), None)
  | DeletePassengersOfTrip tripId =>
      (with_passengers t
         (filter (fun p => negb (passenger_trip_id p =? tripId))
            (passengers t)),
       count (fun p => passenger_trip_id p =? tripId) (passengers t), None)
  | DeleteTrip tripId =>
      (with_trips t (filter (fun x => negb (trip_id x =? tripId)) (trips t)),
       count (fun x => trip_id x =? tripId) (trips t), None)
  end.

(* ------------------------------------------------------------------------ *)
(** ** The schema of the seed image

    [data/manifest.db] carries the schema: its uniqueness, NOT NULL, CHECK
    and foreign-key declarations and the seat-capacity trigger.  The file is
    binary and not part of the sources. *)

(** The declared constraints other than the capacity trigger are a
    parameter of the development: given the connection's [foreign_keys]
    setting, a statement and the tables it meets, [schema_check] answers
    with the message of the constraint the statement violates, if any. *)
Class Schema := {
  schema_check : bool -> Stmt -> Tables -> option string }.

(** Passengers on a trip: [SELECT COUNT( * ) FROM passengers WHERE trip_id = ?] *)
Definition passenger_count (t : Tables) (tripId : Z) : Z :=
  count (fun p => passenger_trip_id p =? tripId) (passengers t).

(** Capacity of the vehicle of the trip's route:
    [SELECT v.capacity FROM trips t JOIN routes r ON t.route_id = r.id
     JOIN vehicles v ON r.vehicle_id = v.id WHERE t.id = ?] *)
Definition trip_capacity (t : Tables) (tripId : Z) : option Z :=
  hd_error
    (flat_map (fun x =>
       flat_map (fun r =>
         map capacity
           (filter (fun v => route_vehicle_id r =? vehicle_id v) (vehicles t)))
         (filter (fun r => trip_route_id x =? route_id r) (routes t)))
       (filter (fun x => trip_id x =? tripId) (trips t))).

(** The message the capacity trigger raises; [bookPassenger] recognises it
    by the words [fully booked]. *)
Definition capacity_message : string := "Vehicle is fully booked".

(** Modelled from the spec: the seat-capacity trigger, which the schema of
    the seed image declares and the source files do not show.  The guard is
    evaluated as part
    of the statement that inserts a passenger: if the insert would push the
    trip's passenger count above the capacity of the vehicle of the trip's
    route, the statement fails and no row is inserted. *)
Definition capacity_guard (s : Stmt) (t : Tables) : option string :=
  match s with
  | InsertPassenger tripId _ _ _ =>
      match trip_capacity t tripId with
      | Some c =>
          if c <? passenger_count t tripId + 1 then Some capacity_message
          else None
      | None => None
      end
  | _ => None
  end.

(* ------------------------------------------------------------------------ *)
(** ** The sql.js database handle

    A connection holds the tables, the transaction state, the
    [foreign_keys] setting of the connection and what [getRowsModified()]
    and [last_insert_rowid()] report.  [savepoint] is the image at [BEGIN]
    while a transaction is open. *)

Inductive JsError :=
| Error_ (message : string)          (** [new Error(message)] *)
| TypeError (message : string)       (** a property read on [null] *)
| DOMException (message : string).   (** a failed IndexedDB request *)

Definition message (e : JsError) : string :=
  match e with Error_ m | TypeError m | DOMException m => m end.

Record Database := {
  tables : Tables;
  savepoint : option Tables;
  foreign_keys : bool;
  rows_modified : Z;
  last_insert_rowid : Z }.

(** [new SQL.Database(data)] *)
Definition new_Database (data : Image) : Database :=
  {| tables := data; savepoint := None; foreign_keys := false;
     rows_modified := 0; last_insert_rowid := 0 |}.

(** [db.export()] returns the bytes of the database file. *)
Definition export (db : Database) : Image := tables db.

(** The handle after [db.export()].  To read the file, sql.js closes the
    connection, and then opens a new one on the same file: what is per
    connection starts afresh, so that foreign keys are off again and
    [getRowsModified()] and [last_insert_rowid()] report 0.  The module
    exports between transactions ([persist] after a statement or a
    commit, [exportDB] and [restoreDB] from the page; see
    [reachable_between_transactions]); what closing the connection does to
    a transaction left open is not modelled, the handle keeps the tables
    and the transaction state it had. *)
Definition reopened (db : Database) : Database :=
  {| tables := tables db; savepoint := savepoint db; foreign_keys := false;
     rows_modified := 0; last_insert_rowid := 0 |}.

(** [db.run(sql, params)] for a statement of [Stmt]: the capacity trigger,
    then the declared constraints, then the change.  A statement that fails
    changes nothing. *)
Definition db_run `{Schema} (now : string) (s : Stmt) (db : Database)
  : JsError + Database :=
  match capacity_guard s (tables db) with
  | Some msg => inl (Error_ msg)
  | None =>
      match schema_check (foreign_keys db) s (tables db) with
      | Some msg => inl (Error_ msg)
      | None =>
          let '(t, n, rowid) := apply_stmt now s (tables db) in
          inr {| tables := t; savepoint := savepoint db;
                 foreign_keys := foreign_keys db; rows_modified := n;
                 last_insert_rowid :=
                   match rowid with
                   | Some r => r
                   | None => last_insert_rowid db
                   end |}
      end
  end.

(** [db.run('BEGIN;')]: SQLite refuses to begin a transaction inside a
    transaction. *)
Definition db_begin (db : Database) : JsError + Database :=
  match savepoint db with
  | Some _ => inl (Error_ "cannot start a transaction within a transaction")
  | None =>
      inr {| tables := tables db; savepoint := Some (tables db);
             foreign_keys := foreign_keys db;
             rows_modified := rows_modified db;
             last_insert_rowid := last_insert_rowid db |}
  end.

(** [db.run('COMMIT;')]: an error when no transaction is open. *)
Definition db_commit (db : Database) : JsError + Database :=
  match savepoint db with
  | None => inl (Error_ "cannot commit - no transaction is active")
  | Some _ =>
      inr {| tables := tables db; savepoint := None;
             foreign_keys := foreign_keys db;
             rows_modified := rows_modified db;
             last_insert_rowid := last_insert_rowid db |}
  end.

(** [db.run('ROLLBACK;')]: the tables go back to those at [BEGIN]; an
    error when no transaction is open. *)
Definition db_rollback (db : Database) : JsError + Database :=
  match savepoint db with
  | None => inl (Error_ "cannot rollback - no transaction is active")
  | Some t0 =>
      inr {| tables := t0; savepoint := None;
             foreign_keys := foreign_keys db;
             rows_modified := rows_modified db;
             last_insert_rowid := last_insert_rowid db |}
  end.

(** [db.run('PRAGMA foreign_keys = ON;')]; the pragma does nothing while a
    transaction is open. *)
Definition db_pragma_foreign_keys_on (db : Database) : JsError + Database :=
  inr {| tables := tables db; savepoint := savepoint db;
         foreign_keys :=
           match savepoint db with
           | None => true
           | Some _ => foreign_keys db
           end;
         rows_modified := rows_modified db;
         last_insert_rowid := last_insert_rowid db |}.

(* ------------------------------------------------------------------------ *)
(** ** The environment of the module *)

(** [fetch]'s response: [res.ok], [res.status], [res.arrayBuffer()]. *)
Record Response := { ok : bool; status : Z; arrayBuffer : Image }.

Inductive Event :=
| InitSqlJs
| IdbGet
| IdbPut (data : Image)
| Fetch (url : string)
| ConsoleLog (line : string)
| Download (filename : string) (data : Image).

Record Env := {
  (** [initSqlJs(config)]: the error it rejects with, if it does *)
  sqljs_error : option string;
  (** what the object store holds under [IDB_KEY] *)
  idb_value : option Image;
  (** the outcomes of the IndexedDB requests to come, one for each request
      in turn: [Some msg] is a request that fails with [msg]; a request
      past the end of the list succeeds *)
  idb_faults : list (option string);
  (** [fetch(DB_URL)] *)
  seed : JsError + Response;
  (** [datetime('now','localtime')] *)
  clock : string;
  (** what the module has asked of its environment, latest first *)
  trace : list Event }.

(** The variables of the [DB] module and its environment.  [_SQL] is
    whether the sql.js constructor has been loaded. *)
Record State := {
  _db : option Database;
  _SQL : bool;
  _dirty : bool;
  env : Env }.

Definition initial (e : Env) : State :=
  {| _db := None; _SQL := false; _dirty := false; env := e |}.

Definition set_db (st : State) (db : option Database) : State :=
  {| _db := db; _SQL := _SQL st; _dirty := _dirty st; env := env st |}.

Definition set_SQL (st : State) (b : bool) : State :=
  {| _db := _db st; _SQL := b; _dirty := _dirty st; env := env st |}.

Definition set_dirty (st : State) (b : bool) : State :=
  {| _db := _db st; _SQL := _SQL st; _dirty := b; env := env st |}.

Definition set_env (st : State) (e : Env) : State :=
  {| _db := _db st; _SQL := _SQL st; _dirty := _dirty st; env := e |}.

Definition emit (ev : Event) (e : Env) : Env :=
  {| sqljs_error := sqljs_error e; idb_value := idb_value e;
     idb_faults := idb_faults e; seed := seed e; clock := clock e;
     trace := ev :: trace e |}.

Definition answered (v : option Image) (e : Env) : Env :=
  {| sqljs_error := sqljs_error e; idb_value := v;
     idb_faults := tl (idb_faults e); seed := seed e; clock := clock e;
     trace := trace e |}.

(* ------------------------------------------------------------------------ *)
(** ** The engine monad: state passing with exceptions *)

Inductive Outcome (A : Type) :=
| Ok (a : A)
| Throw (e : JsError).
Arguments Ok {A} a.
Arguments Throw {A} e.

Definition M (A : Type) : Type := State -> State * Outcome A.

Definition ret {A} (a : A) : M A := fun st => (st, Ok a).

Definition throw {A} (e : JsError) : M A := fun st => (st, Throw e).

Definition bind {A B} (m : M A) (k : A -> M B) : M B :=
  fun st =>
    match m st with
    | (st', Ok a) => k a st'
    | (st', Throw e) => (st', Throw e)
    end.

(** [try { m } catch (err) { h err }] *)
Definition try_catch {A} (m : M A) (h : JsError -> M A) : M A :=
  fun st =>
    match m st with
    | (st', Ok a) => (st', Ok a)
    | (st', Throw e) => h e st'
    end.

Notation "x <- m ;; k" := (bind m (fun x => k))
  (at level 61, m at next level, right associativity).
Notation "m ;; k" := (bind m (fun _ => k))
  (at level 61, right associativity).

Definition get : M State := fun st => (st, Ok st).

Definition modify (f : State -> State) : M unit := fun st => (f st, Ok tt).

Definition console_log (line : string) : M unit :=
  modify (fun st => set_env st (emit (ConsoleLog line) (env st))).

(** A method call [_db.m(...)] that changes the handle in place; on [null]
    it is a TypeError. *)
Definition on_db (m : Database -> JsError + Database) : M unit :=
  fun st =>
    match _db st with
    | None => (st, Throw (TypeError "Cannot read properties of null"))
    | Some db =>
        match m db with
        | inl e => (st, Throw e)
        | inr db' => (set_db st (Some db'), Ok tt)
        end
    end.

(** [if (!_db) throw new Error(msg)] *)
Definition require_db (msg : string) : M Database :=
  fun st =>
    match _db st with
    | None => (st, Throw (Error_ msg))
    | Some db => (st, Ok db)
    end.

(* ------------------------------------------------------------------------ *)
(** ** db-core.js: the [DB] module *)

Module DB.

Section Engine.

Context `{Schema}.

Definition DB_URL : string := "data/manifest.db".

(** One IndexedDB request: it is recorded, takes the next outcome of
    [idb_faults], and on success leaves [v] under the key.  [_openIDB] is
    part of the request: its failure is the request's. *)
Definition idb_request (ev : Event) (v : option Image) : M unit :=
  fun st =>
    let e := emit ev (env st) in
    match idb_faults e with
    | Some msg :: _ =>
        (set_env st (answered (idb_value e) e), Throw (DOMException msg))
    | _ => (set_env st (answered v e), Ok tt)
    end.

Definition _loadFromIDB : M (option Image) :=
  st <- get ;;
  idb_request IdbGet (idb_value (env st)) ;;
  ret (idb_value (env st)).

Definition _saveToIDB (uint8Array : Image) : M unit :=
  idb_request (IdbPut uint8Array) (Some uint8Array).

(** [_SQL = await initSqlJs(sqlJsConfig)] *)
Definition initSqlJs : M unit :=
  fun st =>
    let st1 := set_env st (emit InitSqlJs (env st)) in
    match sqljs_error (env st) with
    | Some msg => (st1, Throw (Error_ msg))
    | None => (set_SQL st1 true, Ok tt)
    end.

(** [await fetch(url)] *)
Definition fetch (url : string) : M Response :=
  fun st =>
    let st1 := set_env st (emit (Fetch url) (env st)) in
    match seed (env st) with
    | inl e => (st1, Throw e)
    | inr res => (st1, Ok res)
    end.

(** [_db.export()]: the bytes, and the connection opened anew. *)
Definition db_export : M Image :=
  fun st =>
    match _db st with
    | None => (st, Throw (TypeError "Cannot read properties of null"))
    | Some db => (set_db st (Some (reopened db)), Ok (export db))
    end.

Definition init : M (option Database) :=
  st <- get ;;
  match _db st with
  | Some db => ret (Some db)
  | None =>
      initSqlJs ;;
      saved <- _loadFromIDB ;;
      match saved with
      | Some data =>
          modify (fun st => set_db st (Some (new_Database data))) ;;
          console_log "[DB] Loaded from IndexedDB"
      | None =>
          res <- fetch DB_URL ;;
          if negb (ok res) then
            throw (Error_ ("Failed to fetch seed DB: "
                             ++ Js.String_ (status res)))
          else
            modify (fun st =>
                      set_db st (Some (new_Database (arrayBuffer res)))) ;;
            data <- db_export ;;
            _saveToIDB data ;;
            console_log "[DB] Loaded from seed file and saved to IndexedDB"
      end ;;
      on_db db_pragma_foreign_keys_on ;;
      st' <- get ;;
      ret (_db st')
  end.

(** [query(sql, params)]: the SELECT text with its parameters bound is the
    function from the tables to the rows it returns. *)
Definition query {R} (sql : Tables -> list R) : M (list R) :=
  db <- require_db "[DB] Not initialised. Call DB.init() first." ;;
  ret (sql (tables db)).

Definition persist : M unit :=
  st <- get ;;
  match _db st with
  | None => ret tt
  | Some db =>
      if negb (_dirty st) then ret tt
      else
        data <- db_export ;;
        _saveToIDB data ;;
        modify (fun st => set_dirty st false) ;;
        console_log "[DB] Persisted to IndexedDB"
  end.

Record RunResult := { changes : Z; lastInsertRowid : Z }.

(** [{ changes: _db.getRowsModified(),
       lastInsertRowid: _db.exec('SELECT last_insert_rowid()')... }] *)
Definition run_result : M RunResult :=
  fun st =>
    match _db st with
    | None => (st, Throw (TypeError "Cannot read properties of null"))
    | Some db =>
        (st, Ok {| changes := rows_modified db;
                   lastInsertRowid := last_insert_rowid db |})
    end.

(** [_db.run(sql, params)] *)
Definition db_exec (sql : Stmt) : M unit :=
  st <- get ;;
  on_db (db_run (clock (env st)) sql).

(** [run(sql, params)]: the result is read once [persist] has returned. *)
Definition run (sql : Stmt) : M RunResult :=
  require_db "[DB] Not initialised. Call DB.init() first." ;;
  db_exec sql ;;
  modify (fun st => set_dirty st true) ;;
  persist ;;
  run_result.

Definition _runInTransaction (sql : Stmt) : M RunResult :=
  db_exec sql ;;
  run_result.

(** A unit of work handed to [transaction]: an async function of the
    handle [{ query, run }].  It ends by returning or by throwing; a call
    of the handle's [run] or [query], or an awaited nested
    [DB.transaction], hands its outcome to the rest of the function, which
    may rethrow it ([uncaught]) or go on. *)
Inductive Closure : Type :=
| Return
| Raise (e : JsError)
| Run (sql : Stmt) (k : Outcome RunResult -> Closure)
| Query (R : Type) (sql : Tables -> list R) (k : Outcome (list R) -> Closure)
| Nested (fn : Closure) (k : Outcome unit -> Closure).

(** The continuation of a call that is not inside a [try]. *)
Definition uncaught {A} (k : A -> Closure) (r : Outcome A) : Closure :=
  match r with
  | Ok a => k a
  | Throw e => Raise e
  end.

(** The outcome of a computation, as a value. *)
Definition attempt {A} (m : M A) : M (Outcome A) :=
  fun st => let (st', r) := m st in (st', Ok r).

(** The body of [transaction], for a unit of work [fn] already applied to
    the handle. *)
Definition transaction_of (fn : M unit) : M unit :=
  require_db "[DB] Not initialised." ;;
  on_db db_begin ;;
  try_catch
    (fn ;;
     on_db db_commit ;;
     modify (fun st => set_dirty st true) ;;
     persist)
    (fun err =>
       on_db db_rollback ;;
       throw err).

(** [await fn({ query, run: _runInTransaction })] *)
Fixpoint call_closure (fn : Closure) : M unit :=
  match fn with
  | Return => ret tt
  | Raise e => throw e
  | Run sql k =>
      r <- attempt (_runInTransaction sql) ;; call_closure (k r)
  | Query sql k =>
      r <- attempt (query sql) ;; call_closure (k r)
  | Nested fn' k =>
      r <- attempt (transaction_of (call_closure fn')) ;; call_closure (k r)
  end.

Definition transaction (fn : Closure) : M unit :=
  transaction_of (call_closure fn).

(** [exportDB(filename)]: the blob handed to the browser's download is the
    exported image. *)
Definition exportDB (filename : string) : M unit :=
  require_db "[DB] Not initialised." ;;
  data <- db_export ;;
  modify (fun st => set_env st (emit (Download filename data) (env st))).

(** [restoreDB(file)].  [_db.close()] leaves nothing of the old handle in
    the module: the next statement replaces it. *)
Definition restoreDB (file : Image) : M unit :=
  st <- get ;;
  if _SQL st then
    modify (fun st => set_db st (Some (new_Database file))) ;;
    on_db db_pragma_foreign_keys_on ;;
    data <- db_export ;;
    _saveToIDB data ;;
    console_log "[DB] Restored from file"
  else throw (TypeError "Cannot read properties of null").

End Engine.

End DB.

(* ------------------------------------------------------------------------ *)
(** ** db-config.js: routes *)

Module DBConfig.

(** A row of [getRoutes] and [getRoute]: the columns of the SELECT, each
    under its alias. *)
Record RouteRow := {
  row_id : Z;
  row_departure_id : Z; row_departure : string;
  row_destination_id : Z; row_destination : string;
  row_vehicle_id : Z; row_vehicle_type : string; row_capacity : Z;
  row_price_ac : option Z; row_price_no_ac : option Z }.

(** [FROM routes r JOIN places dep ON r.departure_id = dep.id
     JOIN places dest ON r.destination_id = dest.id
     JOIN vehicles v ON r.vehicle_id = v.id], for the routes [keep] keeps. *)
Definition joined_routes (keep : Route -> bool) (t : Tables) : list RouteRow :=
  flat_map (fun r =>
    flat_map (fun dep =>
      flat_map (fun dest =>
        map (fun v =>
               {| row_id := route_id r;
                  row_departure_id := place_id dep;
                  row_departure := place_name dep;
                  row_destination_id := place_id dest;
                  row_destination := place_name dest;
                  row_vehicle_id := vehicle_id v;
                  row_vehicle_type := vehicle_type v;
                  row_capacity := capacity v;
                  row_price_ac := price_ac r;
                  row_price_no_ac := price_no_ac r |})
          (filter (fun v => route_vehicle_id r =? vehicle_id v)
             (vehicles t)))
        (filter (fun p => destination_id r =? place_id p) (places t)))
      (filter (fun p => departure_id r =? place_id p) (places t)))
    (filter keep (routes t)).

(** [ORDER BY dep.name, dest.name, v.type] *)
Definition row_leb (a b : RouteRow) : bool :=
  match String.compare (row_departure a) (row_departure b) with
  | Lt => true
  | Gt => false
  | Eq =>
      match String.compare (row_destination a) (row_destination b) with
      | Lt => true
      | Gt => false
      | Eq => String.leb (row_vehicle_type a) (row_vehicle_type b)
      end
  end.

Fixpoint insert_row (x : RouteRow) (l : list RouteRow) : list RouteRow :=
  match l with
  | [] => [x]
  | y :: rest => if row_leb x y then x :: l else y :: insert_row x rest
  end.

Definition order_rows (l : list RouteRow) : list RouteRow :=
  fold_right insert_row [] l.

(** [SELECT id FROM routes
     WHERE departure_id = ? AND destination_id = ? AND vehicle_id = ?] *)
Definition route_matches (depId destId vehicleId : Z) (r : Route) : bool :=
  (departure_id r =? depId) && (destination_id r =? destId)
  && (route_vehicle_id r =? vehicleId).

Definition sql_route_ids (depId destId vehicleId : Z) (t : Tables) : list Z :=
  map route_id (filter (route_matches depId destId vehicleId) (routes t)).

(** The route of a departure, destination and vehicle: the first row the
    SELECT above meets. *)
Definition find_route (depId destId vehicleId : Z) (t : Tables)
  : option Route :=
  hd_error (filter (route_matches depId destId vehicleId) (routes t)).

Section Config.

Context `{Schema}.

Definition getRoutes : M (list RouteRow) :=
  DB.query (fun t => order_rows (joined_routes (fun _ => true) t)).

Definition getRoute (id_ : Z) : M (option RouteRow) :=
  rows <- DB.query (joined_routes (fun r => route_id r =? id_)) ;;
  ret (hd_error rows).

Definition _upsertRoute (depId destId vehicleId : Z)
  (priceAc priceNoAc : option Z) : M unit :=
  existing <- DB.query (sql_route_ids depId destId vehicleId) ;;
  match existing with
  | existing_id :: _ =>
      DB.run (UpdateRoutePrices priceAc priceNoAc existing_id) ;; ret tt
  | [] =>
      DB.run (InsertRoute depId destId vehicleId priceAc priceNoAc) ;; ret tt
  end.

Definition saveRoute (departureId destinationId vehicleId : Z)
  (priceAc priceNoAc : option Z) : M (list RouteRow) :=
  if departureId =? destinationId then
    throw (Error_ "Departure and destination cannot be the same.")
  else
    _upsertRoute departureId destinationId vehicleId priceAc priceNoAc ;;
    reverse <- DB.query (sql_route_ids destinationId departureId vehicleId) ;;
    match reverse with
    | [] => _upsertRoute destinationId departureId vehicleId priceAc priceNoAc
    | _ :: _ => ret tt
    end ;;
    getRoutes.

End Config.

End DBConfig.

(* ------------------------------------------------------------------------ *)
(** ** db-history.js: deleting a trip *)

Module DBHistory.

Section History.

Context `{Schema}.

Definition deleteTrip (tripId : Z) : M unit :=
  DB.transaction
    (DB.Run (DeletePassengersOfTrip tripId) (DB.uncaught (fun _ =>
     DB.Run (DeleteTrip tripId) (DB.uncaught (fun _ =>
     DB.Return))))).

End History.

End DBHistory.

(* ------------------------------------------------------------------------ *)
(** ** db-booking.js: drivers, trips, passengers *)

Module DBBooking.

(** A row of [getTripByBookingCode]: [t.*] and the joined columns. *)
Record TripRow := {
  t_star : Trip;
  departure : string; destination : string;
  row_vehicle_type : string; row_capacity : Z;
  row_driver_name : string; row_driver_phone : string;
  row_price_ac : option Z; row_price_no_ac : option Z }.

(** [trip.id] *)
Definition id (row : TripRow) : Z := trip_id (t_star row).

(** [SELECT * FROM drivers WHERE phone = ?] *)
Definition sql_drivers_by_phone (phone : string) (t : Tables) : list Driver :=
  filter (fun d => String.eqb (driver_phone d) phone) (drivers t).

(** [FROM trips t JOIN routes r ON t.route_id = r.id
     JOIN places dep ON r.departure_id = dep.id
     JOIN places dest ON r.destination_id = dest.id
     JOIN vehicles v ON r.vehicle_id = v.id
     JOIN drivers d ON t.driver_id = d.id
     WHERE t.booking_code = ?] *)
Definition sql_trips_by_booking_code (bookingCode : string) (t : Tables)
  : list TripRow :=
  flat_map (fun x =>
    flat_map (fun r =>
      flat_map (fun dep =>
        flat_map (fun dest =>
          flat_map (fun v =>
            map (fun d =>
                   {| t_star := x;
                      departure := place_name dep;
                      destination := place_name dest;
                      row_vehicle_type := vehicle_type v;
                      row_capacity := capacity v;
                      row_driver_name := driver_name d;
                      row_driver_phone := driver_phone d;
                      row_price_ac := price_ac r;
                      row_price_no_ac := price_no_ac r |})
              (filter (fun d => trip_driver_id x =? driver_id d) (drivers t)))
            (filter (fun v => route_vehicle_id r =? vehicle_id v)
               (vehicles t)))
          (filter (fun p => destination_id r =? place_id p) (places t)))
        (filter (fun p => departure_id r =? place_id p) (places t)))
      (filter (fun r => trip_route_id x =? route_id r) (routes t)))
    (filter (fun x => String.eqb (booking_code x) bookingCode) (trips t)).

(** A row of [getRouteBySelection]. *)
Record SelectionRow := {
  sel_id : Z;
  sel_price_ac : option Z; sel_price_no_ac : option Z;
  sel_capacity : Z; sel_vehicle_type : string;
  sel_departure : string; sel_destination : string }.

(** [FROM routes r JOIN vehicles v ON r.vehicle_id = v.id
     JOIN places dep ON r.departure_id = dep.id
     JOIN places dest ON r.destination_id = dest.id
     WHERE r.departure_id = ? AND r.destination_id = ? AND r.vehicle_id = ?
     LIMIT 1] *)
Definition sql_route_by_selection (departureId destinationId vehicleId : Z)
  (t : Tables) : list SelectionRow :=
  firstn 1
    (flat_map (fun r =>
       flat_map (fun v =>
         flat_map (fun dep =>
           map (fun dest =>
                  {| sel_id := route_id r;
                     sel_price_ac := price_ac r;
                     sel_price_no_ac := price_no_ac r;
                     sel_capacity := capacity v;
                     sel_vehicle_type := vehicle_type v;
                     sel_departure := place_name dep;
                     sel_destination := place_name dest |})
             (filter (fun p => destination_id r =? place_id p) (places t)))
           (filter (fun p => departure_id r =? place_id p) (places t)))
         (filter (fun v => route_vehicle_id r =? vehicle_id v) (vehicles t)))
       (filter (fun r => (departure_id r =? departureId)
                         && (destination_id r =? destinationId)
                         && (route_vehicle_id r =? vehicleId))
          (routes t))).

(** [SELECT v.capacity - COUNT(p.id) AS remaining
     FROM trips t JOIN routes r ON t.route_id = r.id
     JOIN vehicles v ON r.vehicle_id = v.id
     LEFT JOIN passengers p ON p.trip_id = t.id
     WHERE t.id = ? GROUP BY v.capacity].
    [seat_groups] is the join before grouping: for each (t, r, v) the
    capacity and the number of passengers joined to it.  The groups come
    out by ascending capacity. *)
Definition seat_groups (tripId : Z) (t : Tables) : list (Z * Z) :=
  flat_map (fun x =>
    flat_map (fun r =>
      map (fun v => (capacity v, passenger_count t (trip_id x)))
        (filter (fun v => route_vehicle_id r =? vehicle_id v) (vehicles t)))
      (filter (fun r => trip_route_id x =? route_id r) (routes t)))
    (filter (fun x => trip_id x =? tripId) (trips t)).

Fixpoint insert_key (c : Z) (l : list Z) : list Z :=
  match l with
  | [] => [c]
  | y :: rest =>
      if c <? y then c :: l
      else if c =? y then l
      else y :: insert_key c rest
  end.

Definition sql_seats_remaining (tripId : Z) (t : Tables) : list Z :=
  let joined := seat_groups tripId t in
  map (fun c =>
         c - fold_right Z.add 0
               (map snd (filter (fun g => fst g =? c) joined)))
    (fold_right insert_key [] (map fst joined)).

(** [SELECT * FROM passengers WHERE trip_id = ? ORDER BY id ASC] *)
Definition sql_passengers_by_trip (tripId : Z) (t : Tables) : list Passenger :=
  filter (fun p => passenger_trip_id p =? tripId) (passengers t).

(** [{ success: true, passengerId }] or
    [{ success: false, reason, message }] *)
Inductive PassengerBooking :=
| Booked (passengerId : Z)
| NotBooked (reason message : string).

(** [{ success: true, tripId, passengerId, bookingCode, seatsRemaining }],
    or the failed booking of [bookPassenger]. *)
Inductive TripBooking :=
| TripBooked (tripId passengerId : Z) (bookingCode : string)
    (seatsRemaining : option Z)
| TripNotBooked (reason message : string).

(** The argument of [bookTrip]. *)
Record BookTripData := {
  bookingCode : string;
  routeId : Z;
  vehicleNo : string;
  hasAc : bool;
  driverName : string;
  driverPhone : string;
  passengerName : string;
  passengerPhone : string;
  gender : string }.

Section Booking.

Context `{Schema}.

Definition getRouteBySelection (departureId destinationId vehicleId : Z)
  : M (option SelectionRow) :=
  rows <- DB.query
            (sql_route_by_selection departureId destinationId vehicleId) ;;
  ret (hd_error rows).

Definition getSeatsRemaining (tripId : Z) : M (option Z) :=
  result <- DB.query (sql_seats_remaining tripId) ;;
  ret (hd_error result).

Definition getDriverByPhone (phone : string) : M (option Driver) :=
  rows <- DB.query (sql_drivers_by_phone phone) ;;
  ret (hd_error rows).

Definition upsertDriver (name phone vehicleNo_ : string) : M Z :=
  existing <- getDriverByPhone phone ;;
  match existing with
  | Some d =>
      DB.run (UpdateDriver name vehicleNo_ (driver_id d)) ;;
      ret (driver_id d)
  | None =>
      result <- DB.run (InsertDriver name phone vehicleNo_) ;;
      ret (DB.lastInsertRowid result)
  end.

Definition getTripByBookingCode (code : string) : M (option TripRow) :=
  rows <- DB.query (sql_trips_by_booking_code code) ;;
  ret (hd_error rows).

Definition createTrip (code : string) (routeId_ driverId : Z)
  (vehicleNo_ : string) (hasAc_ : bool) : M Z :=
  result <- DB.run (InsertTrip code routeId_ driverId vehicleNo_
                      (if hasAc_ then 1 else 0)) ;;
  ret (DB.lastInsertRowid result).

Definition getPassengersByTrip (tripId : Z) : M (list Passenger) :=
  DB.query (sql_passengers_by_trip tripId).

Definition bookPassenger (tripId : Z) (name phone gender_ : string)
  : M PassengerBooking :=
  try_catch
    (result <- DB.run (InsertPassenger tripId (Js.trim name) (Js.trim phone)
                         gender_) ;;
     ret (Booked (DB.lastInsertRowid result)))
    (fun err =>
       if Js.includes (message err) "fully booked" then
         ret (NotBooked "full" "Vehicle is fully booked. No seats remaining.")
       else throw err).

Definition removePassenger (passengerId : Z) : M unit :=
  DB.run (DeletePassenger passengerId) ;; ret tt.

Definition bookTrip (data : BookTripData) : M TripBooking :=
  driverId <- upsertDriver (driverName data) (driverPhone data)
                (vehicleNo data) ;;
  trip <- getTripByBookingCode (bookingCode data) ;;
  tripId <- match trip with
            | None =>
                createTrip (bookingCode data) (routeId data) driverId
                  (vehicleNo data) (hasAc data)
            | Some row => ret (id row)
            end ;;
  booking <- bookPassenger tripId (passengerName data) (passengerPhone data)
               (gender data) ;;
  match booking with
  | NotBooked reason msg => ret (TripNotBooked reason msg)
  | Booked passengerId =>
      remaining <- getSeatsRemaining tripId ;;
      ret (TripBooked tripId passengerId (bookingCode data) remaining)
  end.

End Booking.

End DBBooking.

(* ------------------------------------------------------------------------ *)
(** ** Sample data *)

Module Sample.

(** A schema that declares nothing beyond the capacity trigger. *)
Definition no_constraints : Schema :=
  {| schema_check := fun _ _ _ => None |}.

(** Foreign keys of trips and passengers, checked when the connection has
    them on. *)
Definition with_foreign_keys : Schema :=
  {| schema_check := fun fk s t =>
       match s with
       | InsertTrip _ routeId _ _ _ =>
           if fk && negb (existsb (fun r => route_id r =? routeId) (routes t))
           then Some "FOREIGN KEY constraint failed" else None
       | InsertPassenger tripId _ _ _ =>
           if fk && negb (existsb (fun x => trip_id x =? tripId) (trips t))
           then Some "FOREIGN KEY constraint failed" else None
       | _ => None
       end |}.

(** A schema under which a trip cannot be deleted. *)
Definition trips_referenced : Schema :=
  {| schema_check := fun _ s _ =>
       match s with
       | DeleteTrip _ => Some "FOREIGN KEY constraint failed"
       | _ => None
       end |}.

Definition lagos : Place :=
  {| place_id := 1; place_name := "Lagos"; place_state_id := None |}.
Definition abuja : Place :=
  {| place_id := 2; place_name := "Abuja"; place_state_id := None |}.
Definition sienna : Vehicle :=
  {| vehicle_id := 1; vehicle_type := "Sienna"; capacity := 2 |}.
Definition lagos_abuja : Route :=
  {| route_id := 1; departure_id := 1; destination_id := 2;
     route_vehicle_id := 1; price_ac := Some 15000; price_no_ac := Some 12000 |}.

Definition seed_tables : Tables :=
  {| places := [lagos; abuja]; vehicles := [sienna]; routes := [lagos_abuja];
     drivers := []; trips := []; passengers := [] |}.

Definition browser : Env :=
  {| sqljs_error := None; idb_value := None; idb_faults := [];
     seed := inr {| ok := true; status := 200; arrayBuffer := seed_tables |};
     clock := "2025-01-01 08:00:00"; trace := [] |}.

(** The module once [init] has run in [browser]. *)
Definition ready : State := fst (DB.init (initial browser)).

Definition booking (name : string) : DBBooking.BookTripData :=
  {| DBBooking.bookingCode := "TRP-20250101-AAAA";
     DBBooking.routeId := 1;
     DBBooking.vehicleNo := "LAG-123-XY";
     DBBooking.hasAc := true;
     DBBooking.driverName := "Musa";
     DBBooking.driverPhone := "08030000000";
     DBBooking.passengerName := name;
     DBBooking.passengerPhone := "08031111111";
     DBBooking.gender := "F" |}.

(** A first run with the seed file missing on the server. *)
Definition offline : Env :=
  {| sqljs_error := None; idb_value := None; idb_faults := [];
     seed := inr {| ok := false; status := 404; arrayBuffer := seed_tables |};
     clock := "2025-01-01 08:00:00"; trace := [] |}.

(** The module after [init] has failed on the seed file: sql.js is loaded,
    no database is. *)
Definition half_initialised : State := fst (DB.init (initial offline)).

(** The database [init] has loaded. *)
Definition ready_db : Database :=
  match _db ready with
  | Some db => db
  | None => new_Database seed_tables
  end.

(** The module with a transaction open. *)
Definition in_transaction : State := fst (on_db db_begin ready).

(** The trip of the booking code, its driver and its first passenger. *)
Definition musa : Driver :=
  {| driver_id := 1; driver_name := "Musa"; driver_phone := "08030000000";
     driver_vehicle_no := "LAG-123-XY" |}.

Definition trip_aaaa : Trip :=
  {| trip_id := 1; booking_code := "TRP-20250101-AAAA"; trip_route_id := 1;
     trip_driver_id := 1; trip_vehicle_no := "LAG-123-XY"; has_ac := 1;
     booked_at := "2025-01-01 08:00:00" |}.

Definition ada : Passenger :=
  {| passenger_id := 1; passenger_trip_id := 1; passenger_name := "Ada";
     passenger_phone := "08031111111"; gender := "F" |}.

(** An image in which Ada is booked on the trip. *)
Definition booked_tables : Tables :=
  {| places := [lagos; abuja]; vehicles := [sienna]; routes := [lagos_abuja];
     drivers := [musa]; trips := [trip_aaaa]; passengers := [ada] |}.

(** A page load that finds this image in IndexedDB. *)
Definition returning : Env :=
  {| sqljs_error := None; idb_value := Some booked_tables; idb_faults := [];
     seed := inr {| ok := true; status := 200; arrayBuffer := seed_tables |};
     clock := "2025-01-01 08:00:00"; trace := [] |}.

(** The module once [init] has loaded the image with Ada on the trip. *)
Definition booked : State := fst (DB.init (initial returning)).

Definition booked_db : Database :=
  match _db booked with
  | Some db => db
  | None => new_Database seed_tables
  end.

(** The module after Bola has been booked on the same trip: the vehicle
    of capacity 2 is full. *)
Definition full : State :=
  fst (@DBBooking.bookTrip no_constraints (booking "Bola") booked).

Definition full_db : Database :=
  match _db full with
  | Some db => db
  | None => new_Database seed_tables
  end.

(** The module once a first driver has been saved. *)
Definition first_driver : State :=
  fst (@DBBooking.upsertDriver no_constraints "Musa" "08030000000"
         "LAG-123-XY" ready).

(** A first run on which IndexedDB answers the read and refuses the
    write. *)
Definition store_full : Env :=
  {| sqljs_error := None; idb_value := None;
     idb_faults := [None; Some "QuotaExceededError"];
     seed := inr {| ok := true; status := 200; arrayBuffer := seed_tables |};
     clock := "2025-01-01 08:00:00"; trace := [] |}.

(** The module with Ada on the trip, when the next IndexedDB request is
    going to fail. *)
Definition quota_exceeded : State :=
  set_env booked
    {| sqljs_error := None; idb_value := idb_value (env booked);
       idb_faults := [Some "QuotaExceededError"]; seed := seed (env booked);
       clock := clock (env booked); trace := trace (env booked) |}.

(** The forward route saved once, at 15000/12000: the reverse route is
    created with these fares. *)
Definition saved_once : State :=
  fst (@DBConfig.saveRoute no_constraints 1 2 1 (Some 15000) (Some 12000)
         ready).

Definition saved_once_db : Database :=
  match _db saved_once with
  | Some db => db
  | None => new_Database seed_tables
  end.

(** The forward route saved again, at 20000/18000. *)
Definition saved_twice : State :=
  fst (@DBConfig.saveRoute no_constraints 1 2 1 (Some 20000) (Some 18000)
         saved_once).

Definition saved_twice_db : Database :=
  match _db saved_twice with
  | Some db => db
  | None => new_Database seed_tables
  end.

Definition listed_twice : list DBConfig.RouteRow :=
  match snd (@DBConfig.saveRoute no_constraints 1 2 1 (Some 20000)
               (Some 18000) saved_once) with
  | Ok rows => rows
  | Throw _ => []
  end.

(** The unit of work of [deleteTrip(1)]. *)
Definition delete_trip_1 : DB.Closure :=
  DB.Run (DeletePassengersOfTrip 1) (DB.uncaught (fun _ =>
  DB.Run (DeleteTrip 1) (DB.uncaught (fun _ =>
  DB.Return)))).

(** The full module after passenger 1 has been removed. *)
Definition removed : State :=
  fst (@DB.run no_constraints (DeletePassenger 1) full).

(** The module inside [deleteTrip(1)], when its unit of work has run. *)
Definition deleting : State :=
  fst (@DB.call_closure no_constraints delete_trip_1
         (fst (on_db db_begin booked))).

(** The full module after [deleteTrip(1)]. *)
Definition deleted : State :=
  fst (@DBHistory.deleteTrip no_constraints 1 full).

Definition date_20250420 : BookingCode.Date :=
  {| BookingCode.getFullYear := 2025; BookingCode.getMonth := 3;
     BookingCode.getDate := 20 |}.

End Sample.

(* ------------------------------------------------------------------------ *)
(** ** The module as a state machine

    The calls of the public interface that can change the module, and the
    states they lead to from a fresh page load. *)

Inductive Call :=
| CallInit
| CallRun (sql : Stmt)
| CallTransaction (fn : DB.Closure)
| CallPersist
| CallExportDB (filename : string)
| CallRestoreDB (file : Image).

Definition call `{Schema} (c : Call) (st : State) : State :=
  match c with
  | CallInit => fst (DB.init st)
  | CallRun sql => fst (DB.run sql st)
  | CallTransaction fn => fst (DB.transaction fn st)
  | CallPersist => fst (DB.persist st)
  | CallExportDB filename => fst (DB.exportDB filename st)
  | CallRestoreDB file => fst (DB.restoreDB file st)
  end.

Inductive reachable `{Schema} : State -> Prop :=
| reachable_initial (e : Env) : reachable (initial e)
| reachable_call (c : Call) (st : State) :
    reachable st -> reachable (call c st).

(** No transaction is open on the connection, if there is one. *)
Definition between_transactions (st : State) : Prop :=
  forall db, _db st = Some db -> savepoint db = None.

(** The module while a transaction that began at tables [t0] is open. *)
Definition open_at (t0 : Tables) (st : State) : Prop :=
  exists db, _db st = Some db /\ savepoint db = Some t0.

(** Two states of the module that differ at most in the tables and in what
    the connection reports of its last statement. *)
Definition same_session (st st' : State) : Prop :=
  _SQL st' = _SQL st /\ _dirty st' = _dirty st /\ env st' = env st
  /\ match _db st, _db st' with
     | Some db, Some db' =>
         savepoint db' = savepoint db /\ foreign_keys db' = foreign_keys db
     | None, None => True
     | _, _ => False
     end.

(** The form [TRP-YYYYMMDD-XXXX]: seventeen characters, the prefix, eight
    decimal digits, a dash, four characters among [0-9] and [A-Z]. *)
Definition is_digit (c : ascii) : bool :=
  let n := nat_of_ascii c in ((48 <=? n) && (n <=? 57))%nat.

Definition is_upper_alnum (c : ascii) : bool :=
  let n := nat_of_ascii c in
  (((48 <=? n) && (n <=? 57)) || ((65 <=? n) && (n <=? 90)))%nat.

Fixpoint all_chars (p : ascii -> bool) (s : string) : bool :=
  match s with
  | EmptyString => true
  | String c rest => p c && all_chars p rest
  end.

Definition four_digits (s : string) : bool :=
  (String.length s =? 4)%nat && all_chars is_digit s.

Definition two_digits (s : string) : bool :=
  (String.length s =? 2)%nat && all_chars is_digit s.

Definition is_booking_code (s : string) : bool :=
  (String.length s =? 17)%nat
  && String.eqb (String.substring 0 4 s) "TRP-"
  && all_chars is_digit (String.substring 4 8 s)
  && String.eqb (String.substring 12 1 s) "-"
  && all_chars is_upper_alnum (String.substring 13 4 s).

(** What identifies a route row apart from its fares. *)
Definition route_key (r : Route) : Z * Z * Z * Z :=
  (route_id r, departure_id r, destination_id r, route_vehicle_id r).

(** What identifies a driver row apart from name and plate. *)
Definition driver_key (d : Driver) : Z * string :=
  (driver_id d, driver_phone d).

(** [t'] is [t] with at most [nd] drivers, [nt] trips and [np] passengers
    added at the end, and nothing else changed but drivers' names and
    plates. *)
Definition grown (nd nt np : nat) (t t' : Tables) : Prop :=
  places t' = places t /\ vehicles t' = vehicles t /\ routes t' = routes t
  /\ (exists newd,
         map driver_key (drivers t')
         = (map driver_key (drivers t) ++ map driver_key newd)%list
         /\ (List.length newd <= nd)%nat)
  /\ (exists newt,
         trips t' = (trips t ++ newt)%list /\ (List.length newt <= nt)%nat)
  /\ (exists newp,
         passengers t' = (passengers t ++ newp)%list
         /\ (List.length newp <= np)%nat).

(** A page reload: the module's variables start afresh, the environment
    (IndexedDB, the server, the console) is what it was. *)
Definition reload (st : State) : State := initial (env st).

(** The next [n] IndexedDB requests succeed. *)
Definition store_answers (n : nat) (e : Env) : Prop :=
  forall msg, ~ In (Some msg) (firstn n (idb_faults e)).

(* ------------------------------------------------------------------------ *)
(** * Properties *)

(** ** The monad *)

Lemma bind_inv {A B} (m : M A) (k : A -> M B) st st' r :
  bind m k st = (st', r) ->
  (exists s a, m st = (s, Ok a) /\ k a s = (st', r))
  \/ (exists e, m st = (st', Throw e) /\ r = Throw e).
Proof.
  unfold bind. destruct (m st) as [s [a | e]]; intros E.
  - left. eauto.
  - right. inversion E; subst. eauto.
Qed.

Lemma bind_ok_inv {A B} (m : M A) (k : A -> M B) st st' b :
  bind m k st = (st', Ok b) ->
  exists s a, m st = (s, Ok a) /\ k a s = (st', Ok b).
Proof.
  intros E. apply bind_inv in E as [E | [e [_ E]]]; [exact E | discriminate].
Qed.

Lemma bind_ok {A B} (m : M A) (k : A -> M B) st s a :
  m st = (s, Ok a) -> bind m k st = k a s.
Proof. unfold bind. intros ->. reflexivity. Qed.

Lemma bind_throw {A B} (m : M A) (k : A -> M B) st s e :
  m st = (s, Throw e) -> bind m k st = (s, Throw e).
Proof. unfold bind. intros ->. reflexivity. Qed.

(** ** The engine's calls, one by one *)

Section EngineFacts.

Context `{Schema}.

Lemma query_eq {R} (sql : Tables -> list R) st :
  DB.query sql st =
  match _db st with
  | None => (st, Throw (Error_ "[DB] Not initialised. Call DB.init() first."))
  | Some db => (st, Ok (sql (tables db)))
  end.
Proof.
  unfold DB.query, bind, require_db, ret. destruct (_db st); reflexivity.
Qed.

Lemma query_ready {R} (sql : Tables -> list R) st db :
  _db st = Some db -> DB.query sql st = (st, Ok (sql (tables db))).
Proof. intros E. rewrite query_eq, E. reflexivity. Qed.

Lemma require_db_ready msg st db :
  _db st = Some db -> require_db msg st = (st, Ok db).
Proof. unfold require_db. intros ->. reflexivity. Qed.

Lemma on_db_ok (m : Database -> JsError + Database) st db db' :
  _db st = Some db -> m db = inr db' ->
  on_db m st = (set_db st (Some db'), Ok tt).
Proof. unfold on_db. intros -> ->. reflexivity. Qed.

Lemma on_db_throw (m : Database -> JsError + Database) st db e :
  _db st = Some db -> m db = inl e -> on_db m st = (st, Throw e).
Proof. unfold on_db. intros -> ->. reflexivity. Qed.

Lemma db_export_ready st db :
  _db st = Some db ->
  DB.db_export st = (set_db st (Some (reopened db)), Ok (export db)).
Proof. unfold DB.db_export. intros ->. reflexivity. Qed.

(** What [persist] can do: nothing, or an export, which opens the
    connection anew, followed by a write that goes through or fails. *)
Lemma persist_inv st st' r :
  DB.persist st = (st', r) ->
  _SQL st' = _SQL st
  /\ clock (env st') = clock (env st)
  /\ match r with
     | Ok _ =>
         (st' = st /\ (_db st = None \/ _dirty st = false))
         \/ (exists db, _db st = Some db /\ _dirty st = true
                        /\ _db st' = Some (reopened db)
                        /\ _dirty st' = false
                        /\ idb_value (env st') = Some (export db)
                        /\ forall msg, hd_error (idb_faults (env st))
                                       <> Some (Some msg))
     | Throw e =>
         _dirty st = true /\ _dirty st' = true
         /\ idb_value (env st') = idb_value (env st)
         /\ (exists db, _db st = Some db /\ _db st' = Some (reopened db))
         /\ exists msg, e = DOMException msg
                        /\ hd_error (idb_faults (env st)) = Some (Some msg)
     end.
Proof.
  unfold DB.persist, bind, get.
  destruct (_db st) as [db |] eqn:Edb.
  2:{ unfold ret. intros E; inversion E; subst. auto 10. }
  destruct (_dirty st) eqn:Ed; simpl.
  2:{ unfold ret. intros E; inversion E; subst. auto 10. }
  rewrite (db_export_ready _ Edb).
  unfold DB._saveToIDB, DB.idb_request, console_log, modify. simpl.
  destruct (idb_faults (env st)) as [| [msg |] rest] eqn:Ef; simpl;
    intros E; inversion E; subst; simpl; do 2 (split; [reflexivity |]).
  - right. exists db. repeat split; auto. intros msg. discriminate.
  - repeat split; eauto.
  - right. exists db. repeat split; auto. intros msg. discriminate.
Qed.

(** What [run] can do: it fails with the state untouched, or the statement
    is applied and exported, the connection is opened anew, and the write
    either goes through or throws; what [run] then returns is read from the
    new connection. *)
Lemma run_inv sql st st' r :
  DB.run sql st = (st', r) ->
  match _db st with
  | None =>
      st' = st
      /\ r = Throw (Error_ "[DB] Not initialised. Call DB.init() first.")
  | Some db =>
      match db_run (clock (env st)) sql db with
      | inl e => st' = st /\ r = Throw e
      | inr db' =>
          _db st' = Some (reopened db') /\ _SQL st' = _SQL st
          /\ clock (env st') = clock (env st)
          /\ ((r = Ok {| DB.changes := 0; DB.lastInsertRowid := 0 |}
               /\ _dirty st' = false
               /\ idb_value (env st') = Some (export db')
               /\ forall msg, hd_error (idb_faults (env st))
                              <> Some (Some msg))
              \/ (exists msg, r = Throw (DOMException msg)
                              /\ _dirty st' = true
                              /\ idb_value (env st') = idb_value (env st)
                              /\ hd_error (idb_faults (env st))
                                 = Some (Some msg)))
      end
  end.
Proof.
  unfold DB.run. intros E.
  apply bind_inv in E as [(s0 & db0 & E0 & E) | (e & E0 & ->)];
    unfold require_db in E0; destruct (_db st) as [db |] eqn:Edb;
    inversion E0; subst; auto.
  apply bind_inv in E as [(s1 & [] & E1 & E) | (e & E1 & ->)];
    unfold DB.db_exec, bind, get, on_db in E1; rewrite Edb in E1;
    destruct (db_run (clock (env s0)) sql db0) as [e1 | db'];
    inversion E1; subst; auto.
  unfold modify in E. unfold bind at 1 in E.
  apply bind_inv in E as [(s & [] & Ep & Er) | (e & Ep & ->)];
    apply persist_inv in Ep; simpl in Ep;
    destruct Ep as (Ep2 & Ep3 & Ep4).
  - destruct Ep4 as [[-> [? | ?]] | (db1 & E2 & _ & E3 & ? & ? & ?)];
      try discriminate.
    inversion E2; subst db1.
    unfold DB.run_result in Er. rewrite E3 in Er. inversion Er; subst.
    do 3 (split; [auto |]). left. auto.
  - destruct Ep4 as (_ & ? & ? & (db1 & E2 & E3) & msg & -> & ?).
    inversion E2; subst db1.
    do 3 (split; [auto |]). right. exists msg. auto.
Qed.

End EngineFacts.

(* ------------------------------------------------------------------------ *)
(** ** Transactions *)

Section TransactionFacts.

Context `{Schema}.

Lemma same_session_refl st : same_session st st.
Proof. unfold same_session. destruct (_db st); auto. Qed.

Lemma same_session_trans s1 s2 s3 :
  same_session s1 s2 -> same_session s2 s3 -> same_session s1 s3.
Proof.
  unfold same_session. intros (A1 & A2 & A3 & A4) (B1 & B2 & B3 & B4).
  repeat split; try congruence.
  destruct (_db s1), (_db s2), (_db s3); try tauto.
  destruct A4, B4. split; congruence.
Qed.

Lemma same_session_open t0 st st' :
  same_session st st' -> open_at t0 st -> open_at t0 st'.
Proof.
  unfold same_session, open_at. intros (_ & _ & _ & S) (db & E & Es).
  rewrite E in S. destruct (_db st') as [db' |]; [| tauto].
  exists db'. destruct S. split; congruence.
Qed.

Lemma db_run_session now sql db db' :
  db_run now sql db = inr db' ->
  savepoint db' = savepoint db /\ foreign_keys db' = foreign_keys db.
Proof.
  unfold db_run.
  destruct (capacity_guard sql (tables db)); [discriminate |].
  destruct (schema_check (foreign_keys db) sql (tables db)); [discriminate |].
  destruct (apply_stmt now sql (tables db)) as [[t n] rowid].
  intros E; inversion E; subst. auto.
Qed.

(** A statement run through the transaction's handle is not persisted and
    does not end the transaction. *)
Lemma runInTransaction_session sql st st' r :
  DB._runInTransaction sql st = (st', r) -> same_session st st'.
Proof.
  unfold DB._runInTransaction. intros E.
  apply bind_inv in E as [(s & [] & E1 & E2) | (e & E1 & ->)].
  - unfold DB.run_result in E2.
    assert (st' = s) as -> by (destruct (_db s); inversion E2; auto).
    clear E2. unfold DB.db_exec, bind, get, on_db in E1.
    destruct (_db st) as [db |] eqn:Edb; [| discriminate].
    destruct (db_run (clock (env st)) sql db) as [e | db'] eqn:Er;
      inversion E1; subst.
    apply db_run_session in Er. unfold same_session. simpl. rewrite Edb.
    tauto.
  - unfold DB.db_exec, bind, get, on_db in E1.
    destruct (_db st) as [db |] eqn:Edb.
    + destruct (db_run (clock (env st)) sql db); inversion E1; subst.
      apply same_session_refl.
    + inversion E1; subst. apply same_session_refl.
Qed.

(** [BEGIN] inside a transaction: the call ends there. *)
Lemma transaction_of_open (m : M unit) t0 st :
  open_at t0 st ->
  DB.transaction_of m st
  = (st, Throw (Error_ "cannot start a transaction within a transaction")).
Proof.
  intros (db & E & Es).
  unfold DB.transaction_of.
  erewrite bind_ok by (apply require_db_ready; exact E).
  apply bind_throw. eapply on_db_throw; [exact E |].
  unfold db_begin. rewrite Es. reflexivity.
Qed.

(** While a transaction is open, nothing a unit of work does through its
    handle persists anything or ends the transaction. *)
Lemma call_closure_session fn : forall t0 st st' r,
  open_at t0 st ->
  DB.call_closure fn st = (st', r) ->
  same_session st st'.
Proof.
  induction fn as [| e | sql k IH | R sql k IH | inner _ k IH];
    intros t0 st st' r Ho E; simpl in E.
  - inversion E; subst. apply same_session_refl.
  - inversion E; subst. apply same_session_refl.
  - unfold bind, DB.attempt in E.
    destruct (DB._runInTransaction sql st) as [s r0] eqn:E1.
    apply runInTransaction_session in E1.
    eapply same_session_trans; [exact E1 |].
    eapply IH; [| exact E]. eapply same_session_open; eauto.
  - unfold bind, DB.attempt in E. rewrite query_eq in E.
    destruct (_db st); eapply IH; eauto.
  - unfold bind, DB.attempt in E.
    rewrite (transaction_of_open _ Ho) in E. eapply IH; eauto.
Qed.

End TransactionFacts.

(** C6: a call of [transaction] while a transaction is open fails at its
    [BEGIN] with the engine's error, before the unit of work is called and
    without a rollback; the module, and with it the open transaction, is
    as before.  So does a [transaction] awaited inside a unit of work. *)
Theorem nested_transaction_fails `{Schema} (st : State) (db : Database)
  (t0 : Tables) :
  _db st = Some db -> savepoint db = Some t0 ->
  (forall fn,
      DB.transaction fn st
      = (st, Throw (Error_ "cannot start a transaction within a transaction")))
  /\ (forall inner k,
         DB.call_closure (DB.Nested inner k) st
         = DB.call_closure
             (k (Throw (Error_
                   "cannot start a transaction within a transaction"))) st).
Proof.
  intros E Es. assert (Ho : open_at t0 st) by (exists db; auto).
  split; intros.
  - apply (transaction_of_open _ Ho).
  - simpl. unfold bind, DB.attempt.
    rewrite (transaction_of_open _ Ho). reflexivity.
Qed.

Lemma nested_transaction_fails_witness :
  @DB.transaction Sample.no_constraints DB.Return Sample.in_transaction
  = (Sample.in_transaction,
     Throw (Error_ "cannot start a transaction within a transaction")).
Proof.
  apply (@nested_transaction_fails Sample.no_constraints Sample.in_transaction
           {| tables := Sample.seed_tables;
              savepoint := Some Sample.seed_tables;
              foreign_keys := true; rows_modified := 0;
              last_insert_rowid := 0 |} Sample.seed_tables);
    reflexivity.
Defined.

(** C2: when the unit of work throws, whatever statements it has run
    before, [transaction] rolls back and throws the same error; the tables
    are those of before the call, every query answers as before, and
    nothing was written to the backing store. *)
Theorem transaction_rolls_back `{Schema} (fn : DB.Closure) (st s1 : State)
  (db : Database) (e : JsError) :
  _db st = Some db -> savepoint db = None ->
  DB.call_closure fn (fst (on_db db_begin st)) = (s1, Throw e) ->
  exists db',
    DB.transaction fn st = (set_db st (Some db'), Throw e)
    /\ tables db' = tables db
    /\ savepoint db' = None
    /\ foreign_keys db' = foreign_keys db
    /\ forall R (sql : Tables -> list R),
         snd (DB.query sql (set_db st (Some db'))) = snd (DB.query sql st).
Proof.
  intros E Es Ec.
  unfold on_db, db_begin in Ec. rewrite E, Es in Ec. simpl in Ec.
  set (db_b := {| tables := tables db; savepoint := Some (tables db);
                  foreign_keys := foreign_keys db;
                  rows_modified := rows_modified db;
                  last_insert_rowid := last_insert_rowid db |}) in *.
  assert (Ho : open_at (tables db) (set_db st (Some db_b)))
    by (exists db_b; auto).
  pose proof (call_closure_session _ Ho Ec) as (S1 & S2 & S3 & S4).
  simpl in S1, S2, S3, S4.
  destruct (_db s1) as [db1 |] eqn:E1; [| tauto].
  destruct S4 as [S4 S5]. simpl in S4, S5.
  exists {| tables := tables db; savepoint := None;
            foreign_keys := foreign_keys db1;
            rows_modified := rows_modified db1;
            last_insert_rowid := last_insert_rowid db1 |}.
  repeat split; auto.
  - unfold DB.transaction, DB.transaction_of.
    erewrite bind_ok by (apply require_db_ready; exact E).
    erewrite bind_ok
      by (eapply on_db_ok; [exact E | unfold db_begin; rewrite Es; reflexivity]).
    fold db_b. unfold try_catch.
    erewrite bind_throw by exact Ec.
    erewrite bind_ok
      by (eapply on_db_ok;
          [exact E1 | unfold db_rollback; rewrite S4; reflexivity]).
    unfold throw. f_equal.
    destruct st, s1; simpl in *; subst; reflexivity.
  - intros R sql. rewrite !query_eq. simpl. rewrite E. reflexivity.
Qed.

Lemma transaction_rolls_back_witness :
  exists db',
    @DBHistory.deleteTrip Sample.trips_referenced 1 Sample.booked
    = (set_db Sample.booked (Some db'),
       Throw (Error_ "FOREIGN KEY constraint failed"))
    /\ tables db' = tables Sample.booked_db
    /\ savepoint db' = None
    /\ foreign_keys db' = foreign_keys Sample.booked_db
    /\ forall R (sql : Tables -> list R),
         snd (DB.query sql (set_db Sample.booked (Some db')))
         = snd (DB.query sql Sample.booked).
Proof.
  apply (@transaction_rolls_back Sample.trips_referenced _ Sample.booked
           (fst (@DB.call_closure Sample.trips_referenced
                   Sample.delete_trip_1 (fst (on_db db_begin Sample.booked))))
           Sample.booked_db (Error_ "FOREIGN KEY constraint failed"));
    vm_compute; reflexivity.
Defined.

(* ------------------------------------------------------------------------ *)
(** ** Persistence when the backing store fails *)

Section PersistenceFacts.

Context `{Schema}.

Lemma persist_fails st db msg :
  _db st = Some db -> _dirty st = true ->
  hd_error (idb_faults (env st)) = Some (Some msg) ->
  exists st',
    DB.persist st = (st', Throw (DOMException msg))
    /\ _db st' = Some (reopened db) /\ _dirty st' = true
    /\ _SQL st' = _SQL st
    /\ idb_value (env st') = idb_value (env st).
Proof.
  intros E Ed Ef. destruct (DB.persist st) as [st' r] eqn:Ep.
  pose proof (persist_inv _ Ep) as (P2 & _ & P4). exists st'.
  destruct r as [[] | e].
  - destruct P4 as [[_ [? | ?]] | (? & _ & _ & _ & _ & _ & P)];
      [congruence | congruence | now destruct (P msg)].
  - destruct P4 as (_ & ? & ? & (db0 & E0 & E1) & msg' & -> & Ef').
    rewrite Ef in Ef'. inversion Ef'; subst.
    rewrite E in E0. inversion E0; subst db0. repeat split; congruence.
Qed.

(** A later [persist], when the store answers, writes the image as it is:
    no statement is run again. *)
Lemma persist_retries st db :
  _db st = Some db -> _dirty st = true ->
  (forall msg, hd_error (idb_faults (env st)) <> Some (Some msg)) ->
  exists st',
    DB.persist st = (st', Ok tt)
    /\ _db st' = Some (reopened db) /\ _dirty st' = false
    /\ idb_value (env st') = Some (export db).
Proof.
  intros E Ed Ef. destruct (DB.persist st) as [st' r] eqn:Ep.
  pose proof (persist_inv _ Ep) as (P2 & _ & P4). exists st'.
  destruct r as [[] | e].
  - destruct P4 as [[_ [? | ?]] | (db0 & E0 & _ & ? & ? & ? & _)];
      try congruence.
    rewrite E in E0. inversion E0; subst db0. repeat split; congruence.
  - destruct P4 as (_ & _ & _ & _ & msg & _ & Ef'). now destruct (Ef msg).
Qed.

(** [run]: the statement is applied, the export fails, and the caller
    gets the store's error; the change stays, flagged for a later export. *)
Lemma run_export_failure sql st db db' msg :
  _db st = Some db ->
  db_run (clock (env st)) sql db = inr db' ->
  hd_error (idb_faults (env st)) = Some (Some msg) ->
  exists st',
    DB.run sql st = (st', Throw (DOMException msg))
    /\ _db st' = Some (reopened db') /\ _dirty st' = true
    /\ idb_value (env st') = idb_value (env st).
Proof.
  intros E Er Ef. destruct (DB.run sql st) as [st' r] eqn:Erun.
  pose proof (run_inv _ _ Erun) as R. rewrite E, Er in R.
  destruct R as (R1 & _ & _ & [(-> & _ & _ & P) | (msg' & -> & ? & ? & Ef')]).
  - now destruct (P msg).
  - rewrite Ef in Ef'. inversion Ef'; subst. exists st'. auto.
Qed.

(** [transaction]: the unit of work returns, [COMMIT] ends the
    transaction, the export fails inside the [try] block, and the handler's
    [ROLLBACK] finds no transaction: the caller gets the engine's error for
    that, not the store's.  The committed change stays, flagged for a later
    export. *)
Lemma transaction_export_failure fn st s1 db msg :
  _db st = Some db -> savepoint db = None ->
  DB.call_closure fn (fst (on_db db_begin st)) = (s1, Ok tt) ->
  hd_error (idb_faults (env st)) = Some (Some msg) ->
  exists st' db1 db',
    DB.transaction fn st
    = (st', Throw (Error_ "cannot rollback - no transaction is active"))
    /\ _db s1 = Some db1 /\ _db st' = Some db'
    /\ tables db' = tables db1 /\ savepoint db' = None
    /\ _dirty st' = true
    /\ idb_value (env st') = idb_value (env st).
Proof.
  intros E Es Ec Ef.
  unfold on_db, db_begin in Ec. rewrite E, Es in Ec. simpl in Ec.
  set (db_b := {| tables := tables db; savepoint := Some (tables db);
                  foreign_keys := foreign_keys db;
                  rows_modified := rows_modified db;
                  last_insert_rowid := last_insert_rowid db |}) in *.
  assert (Ho : open_at (tables db) (set_db st (Some db_b)))
    by (exists db_b; auto).
  pose proof (call_closure_session _ Ho Ec) as (S1 & S2 & S3 & S4).
  simpl in S1, S2, S3, S4.
  destruct (_db s1) as [db1 |] eqn:E1; [| tauto].
  destruct S4 as [S4 S5]. simpl in S4, S5.
  set (db_c := {| tables := tables db1; savepoint := None;
                  foreign_keys := foreign_keys db1;
                  rows_modified := rows_modified db1;
                  last_insert_rowid := last_insert_rowid db1 |}).
  destruct (@persist_fails (set_dirty (set_db s1 (Some db_c)) true) db_c msg)
    as (st' & Ep & P1 & P2 & _ & P4); simpl; try congruence.
  exists st', db1, (reopened db_c).
  repeat split; auto; [| simpl in P4; congruence].
  unfold DB.transaction, DB.transaction_of.
  erewrite bind_ok by (apply require_db_ready; exact E).
  erewrite bind_ok
    by (eapply on_db_ok; [exact E | unfold db_begin; rewrite Es; reflexivity]).
  fold db_b. unfold try_catch.
  erewrite bind_ok by exact Ec.
  erewrite bind_ok
    by (eapply on_db_ok; [exact E1 | unfold db_commit; rewrite S4; reflexivity]).
  fold db_c. erewrite bind_ok by (unfold modify; reflexivity).
  rewrite Ep. apply bind_throw. eapply on_db_throw; [exact P1 | reflexivity].
Qed.

End PersistenceFacts.

(** C3: in the state [quota_exceeded], where the next write to IndexedDB
    fails with [QuotaExceededError], [run] of a DELETE throws that error,
    and [deleteTrip], whose unit of work completes, throws the engine's
    [cannot rollback] error instead.  In both cases the rows are deleted
    and [_dirty] stays set. *)
Theorem export_failure_in_transaction_is_masked :
  let run_ := @DB.run Sample.no_constraints (DeletePassengersOfTrip 1)
                Sample.quota_exceeded in
  let del_ := @DBHistory.deleteTrip Sample.no_constraints 1
                Sample.quota_exceeded in
  snd run_ = Throw (DOMException "QuotaExceededError")
  /\ _dirty (fst run_) = true
  /\ option_map (fun db => passengers (tables db)) (_db (fst run_)) = Some []
  /\ snd del_ = Throw (Error_ "cannot rollback - no transaction is active")
  /\ _dirty (fst del_) = true
  /\ option_map (fun db => (trips (tables db), passengers (tables db)))
       (_db (fst del_)) = Some ([], []).
Proof. vm_compute. repeat split. Qed.

(* ------------------------------------------------------------------------ *)
(** ** Backup and restore *)

(** What [exportDB] does with a database loaded: the exported image goes
    to the download, and the connection is opened anew. *)
Lemma exportDB_ready (filename : string) (st : State) (db : Database) :
  _db st = Some db ->
  DB.exportDB filename st
  = (set_env (set_db st (Some (reopened db)))
       (emit (Download filename (export db)) (env st)),
     Ok tt).
Proof.
  intros E. unfold DB.exportDB.
  erewrite bind_ok by (apply require_db_ready; exact E).
  erewrite bind_ok by (apply db_export_ready; exact E).
  reflexivity.
Qed.

(** What [restoreDB] leaves when the sql.js constructor is loaded: the
    file's tables on a connection opened anew by the export that follows
    the pragma, so that foreign keys are off; the image is in IndexedDB
    when the store answers. *)
Lemma restoreDB_loaded (file : Image) (st st' : State) (r : Outcome unit) :
  _SQL st = true ->
  DB.restoreDB file st = (st', r) ->
  _db st' = Some (reopened (new_Database file))
  /\ _SQL st' = true
  /\ (r = Ok tt -> idb_value (env st') = Some file)
  /\ ((forall msg, hd_error (idb_faults (env st)) <> Some (Some msg))
      -> r = Ok tt).
Proof.
  intros L. unfold DB.restoreDB, bind, get, modify, on_db,
    DB.db_export, DB._saveToIDB, DB.idb_request, console_log, modify.
  simpl. rewrite L. simpl.
  destruct (idb_faults (env st)) as [| [msg |] rest] eqn:Ef; simpl;
    intros E2; inversion E2; subst; simpl;
    (split; [reflexivity |]); (split; [exact L |]);
    (split; [intros ?; first [reflexivity | discriminate] |]);
    intros P; first [reflexivity | now destruct (P msg)].
Qed.

(** C8: after [init] on a first run the connection enforces foreign keys:
    under a schema that declares them, a passenger for a trip that does not
    exist is refused.  [exportDB] hands the image to the download, and
    [restoreDB] of that image returns with the same tables, but on a
    connection with foreign keys off: the same passenger is now accepted,
    and is in the table. *)
Theorem round_trip_drops_foreign_keys :
  let orphan := InsertPassenger 99 "Ada" "08031111111" "F" in
  let exported := fst (DB.exportDB "manifest-backup.db" Sample.ready) in
  let restored := DB.restoreDB (export Sample.ready_db) exported in
  option_map foreign_keys (_db Sample.ready) = Some true
  /\ snd (@DB.run Sample.with_foreign_keys orphan Sample.ready)
     = Throw (Error_ "FOREIGN KEY constraint failed")
  /\ hd_error (trace (env exported))
     = Some (Download "manifest-backup.db" (export Sample.ready_db))
  /\ snd restored = Ok tt
  /\ option_map tables (_db (fst restored))
     = option_map tables (_db Sample.ready)
  /\ option_map foreign_keys (_db (fst restored)) = Some false
  /\ snd (@DB.run Sample.with_foreign_keys orphan (fst restored))
     = Ok {| DB.changes := 0; DB.lastInsertRowid := 0 |}
  /\ option_map (fun db => map passenger_trip_id (passengers (tables db)))
       (_db (fst (@DB.run Sample.with_foreign_keys orphan (fst restored))))
     = Some [99].
Proof. vm_compute. repeat split. Qed.

(* ------------------------------------------------------------------------ *)
(** ** Reachable states: the module exports between transactions *)

Section Reachability.

Context `{Schema}.

Lemma init_between_transactions st st' r :
  between_transactions st -> DB.init st = (st', r) ->
  between_transactions st'.
Proof.
  intros B. destruct (_db st) as [db |] eqn:Edb.
  { unfold DB.init, bind, get. rewrite Edb.
    intros E. inversion E; subst. exact B. }
  clear B. destruct st as [d sq di [se iv faults sd ck tr]].
  simpl in Edb. subst d.
  unfold DB.init, bind, get, DB.initSqlJs, DB._loadFromIDB, DB.fetch,
    DB.db_export, DB._saveToIDB, DB.idb_request, console_log, modify, on_db,
    ret, throw. simpl.
  destruct se; destruct faults as [| [m |] [| [m' |] rest]];
    destruct iv; destruct sd as [e | [o code buf]]; try destruct o; simpl;
    intros E; inversion E; subst; intros db Ed; simpl in Ed;
    first [discriminate | inversion Ed; reflexivity].
Qed.

Lemma persist_between_transactions st st' r :
  between_transactions st -> DB.persist st = (st', r) ->
  between_transactions st'.
Proof.
  intros B Ep. apply persist_inv in Ep as (_ & _ & P).
  destruct r as [[] | e].
  - destruct P as [[-> _] | (db & E & _ & E' & _)]; [exact B |].
    intros db' Ed. rewrite E' in Ed. inversion Ed; subst. simpl. auto.
  - destruct P as (_ & _ & _ & (db & E & E') & _).
    intros db' Ed. rewrite E' in Ed. inversion Ed; subst. simpl. auto.
Qed.

Lemma run_between_transactions sql st st' r :
  between_transactions st -> DB.run sql st = (st', r) ->
  between_transactions st'.
Proof.
  intros B Er. apply run_inv in Er.
  destruct (_db st) as [db |] eqn:E; [| destruct Er as [-> _]; exact B].
  destruct (db_run (clock (env st)) sql db) as [e | db'] eqn:Ed;
    [destruct Er as [-> _]; exact B |].
  destruct Er as (E' & _). apply db_run_session in Ed as [Es _].
  intros d Ed'. rewrite E' in Ed'. inversion Ed'; subst. simpl.
  rewrite Es. auto.
Qed.

Lemma exportDB_between_transactions filename st st' r :
  between_transactions st -> DB.exportDB filename st = (st', r) ->
  between_transactions st'.
Proof.
  intros B Ex. destruct (_db st) as [db |] eqn:E.
  - erewrite exportDB_ready in Ex by exact E. inversion Ex; subst.
    intros d Ed. simpl in Ed. inversion Ed; subst. simpl. auto.
  - unfold DB.exportDB, bind, require_db in Ex. rewrite E in Ex.
    inversion Ex; subst. exact B.
Qed.

Lemma restoreDB_between_transactions file st st' r :
  between_transactions st -> DB.restoreDB file st = (st', r) ->
  between_transactions st'.
Proof.
  intros B Er. destruct (_SQL st) eqn:L.
  - apply restoreDB_loaded in Er as (E' & _); [| exact L].
    intros d Ed. rewrite E' in Ed. inversion Ed; subst. reflexivity.
  - unfold DB.restoreDB, bind, get in Er. rewrite L in Er.
    inversion Er; subst. exact B.
Qed.

Lemma transaction_between_transactions fn st st' r :
  between_transactions st -> DB.transaction fn st = (st', r) ->
  between_transactions st'.
Proof.
  intros B Et. unfold DB.transaction, DB.transaction_of in Et.
  destruct (_db st) as [db |] eqn:E.
  2:{ unfold bind, require_db in Et. rewrite E in Et.
      inversion Et; subst. exact B. }
  pose proof (B db E) as Es.
  erewrite bind_ok in Et by (apply require_db_ready; exact E).
  erewrite bind_ok in Et
    by (eapply on_db_ok; [exact E | unfold db_begin; rewrite Es; reflexivity]).
  set (db_b := {| tables := tables db; savepoint := Some (tables db);
                  foreign_keys := foreign_keys db;
                  rows_modified := rows_modified db;
                  last_insert_rowid := last_insert_rowid db |}) in *.
  assert (Ho : open_at (tables db) (set_db st (Some db_b)))
    by (exists db_b; auto).
  unfold try_catch in Et.
  destruct (DB.call_closure fn (set_db st (Some db_b))) as [s1 [[] | e]] eqn:Ec;
    pose proof (call_closure_session _ Ho Ec) as (_ & _ & _ & S4);
    simpl in S4; destruct (_db s1) as [db1 |] eqn:E1; try tauto;
    destruct S4 as [S4 _]; simpl in S4.
  - erewrite bind_ok in Et by exact Ec.
    erewrite bind_ok in Et
      by (eapply on_db_ok;
          [exact E1 | unfold db_commit; rewrite S4; reflexivity]).
    erewrite bind_ok in Et by (unfold modify; reflexivity).
    match type of Et with
    | match ?p with _ => _ end = _ => destruct p as [s4 [[] | e4]] eqn:Ep
    end;
      apply persist_between_transactions in Ep;
      try (intros d Ed; simpl in Ed; inversion Ed; reflexivity).
    + inversion Et; subst. exact Ep.
    + apply bind_inv in Et as [(s5 & [] & Er & Et) | (e5 & Er & _)];
        unfold on_db in Er; destruct (_db s4) as [d4 |] eqn:E4;
        try (unfold db_rollback in Er; rewrite (Ep d4 E4) in Er);
        try discriminate; inversion Er; subst; exact Ep.
  - erewrite bind_throw in Et by exact Ec.
    erewrite bind_ok in Et
      by (eapply on_db_ok;
          [exact E1 | unfold db_rollback; rewrite S4; reflexivity]).
    inversion Et; subst. intros d Ed. simpl in Ed. inversion Ed; reflexivity.
Qed.

(** Between the calls of the public interface no transaction is open:
    every export of [run], [persist], [exportDB] and [restoreDB] finds the
    connection outside a transaction. *)
Lemma reachable_between_transactions st :
  reachable st -> between_transactions st.
Proof.
  induction 1 as [e | c st _ IH].
  - intros db E. discriminate.
  - destruct c; simpl.
    + destruct (DB.init st) eqn:E.
      eapply init_between_transactions; eauto.
    + destruct (DB.run sql st) eqn:E.
      eapply run_between_transactions; eauto.
    + destruct (DB.transaction fn st) eqn:E.
      eapply transaction_between_transactions; eauto.
    + destruct (DB.persist st) eqn:E.
      eapply persist_between_transactions; eauto.
    + destruct (DB.exportDB filename st) eqn:E.
      eapply exportDB_between_transactions; eauto.
    + destruct (DB.restoreDB file st) eqn:E.
      eapply restoreDB_between_transactions; eauto.
Qed.

End Reachability.

(* ------------------------------------------------------------------------ *)
(** ** Booking *)

Section BookingFacts.

Context `{Schema}.

(** A statement that [db.run] accepts has passed the capacity trigger and
    leaves the tables [apply_stmt] computes. *)
Lemma db_run_ok now sql db db' :
  db_run now sql db = inr db' ->
  capacity_guard sql (tables db) = None
  /\ tables db' = fst (fst (apply_stmt now sql (tables db)))
  /\ last_insert_rowid db'
     = match snd (apply_stmt now sql (tables db)) with
       | Some r => r
       | None => last_insert_rowid db
       end.
Proof.
  unfold db_run.
  destruct (capacity_guard sql (tables db)); [discriminate |].
  destruct (schema_check (foreign_keys db) sql (tables db)); [discriminate |].
  destruct (apply_stmt now sql (tables db)) as [[t n] rowid].
  intros E; inversion E; subst. auto.
Qed.

(** A [run] that returns: the statement was accepted, the connection has
    been opened anew by the export, and the result, read after it, reports
    no change and the rowid 0. *)
Lemma run_returns sql st st' res db :
  _db st = Some db ->
  DB.run sql st = (st', Ok res) ->
  exists db',
    db_run (clock (env st)) sql db = inr db'
    /\ _db st' = Some (reopened db')
    /\ clock (env st') = clock (env st)
    /\ res = {| DB.changes := 0; DB.lastInsertRowid := 0 |}.
Proof.
  intros E Er. apply run_inv in Er. rewrite E in Er.
  destruct (db_run (clock (env st)) sql db) as [e | db'].
  - destruct Er; discriminate.
  - destruct Er as (E' & _ & Ec & [(Eres & _) | (msg & ? & _)]);
      [| discriminate].
    inversion Eres; subst. exists db'. auto.
Qed.

(** [createTrip], when it returns: one trip row was added under a new id,
    and what is returned is 0, not that id. *)
Lemma createTrip_returns_zero code routeId_ driverId vehicleNo_ hasAc_
  st st' tid db :
  _db st = Some db ->
  DBBooking.createTrip code routeId_ driverId vehicleNo_ hasAc_ st
  = (st', Ok tid) ->
  tid = 0
  /\ exists db',
       _db st' = Some db'
       /\ trips (tables db')
          = (trips (tables db) ++
               [{| trip_id := next_rowid (map trip_id (trips (tables db)));
                   booking_code := code;
                   trip_route_id := routeId_; trip_driver_id := driverId;
                   trip_vehicle_no := vehicleNo_;
                   has_ac := if hasAc_ then 1 else 0;
                   booked_at := clock (env st) |}])%list.
Proof.
  intros E Ec. unfold DBBooking.createTrip in Ec.
  apply bind_ok_inv in Ec as (s & res & Er & Ec). inversion Ec; subst.
  destruct (run_returns _ _ E Er) as (db2 & Edb & E2 & _ & ->).
  apply db_run_ok in Edb as (_ & T & _). simpl in T.
  split; [reflexivity |]. exists (reopened db2). simpl. rewrite T. auto.
Qed.

(** [bookPassenger], when it books: the passenger is on the trip asked
    for, and the [passengerId] returned is 0. *)
Lemma bookPassenger_returns_zero tripId name phone gender_ st st' pid db :
  _db st = Some db ->
  DBBooking.bookPassenger tripId name phone gender_ st
  = (st', Ok (DBBooking.Booked pid)) ->
  pid = 0
  /\ exists db',
       _db st' = Some db'
       /\ passengers (tables db')
          = (passengers (tables db) ++
               [{| passenger_id :=
                     next_rowid (map passenger_id (passengers (tables db)));
                   passenger_trip_id := tripId;
                   passenger_name := Js.trim name;
                   passenger_phone := Js.trim phone;
                   gender := gender_ |}])%list.
Proof.
  intros E Eb. unfold DBBooking.bookPassenger, try_catch in Eb.
  destruct (DB.run (InsertPassenger tripId (Js.trim name) (Js.trim phone)
                      gender_) st) as [s [res | e]] eqn:Er.
  - erewrite bind_ok in Eb by exact Er. inversion Eb; subst.
    destruct (run_returns _ _ E Er) as (db2 & Edb & E2 & _ & ->).
    apply db_run_ok in Edb as (_ & T & _). simpl in T.
    split; [reflexivity |]. exists (reopened db2). simpl. rewrite T. auto.
  - erewrite bind_throw in Eb by exact Er.
    destruct (Js.includes (message e) "fully booked"); discriminate.
Qed.

End BookingFacts.


(* ------------------------------------------------------------------------ *)
(** ** One trip for a booking code *)

(** C5: on the seed image, two bookings under one booking code, for two
    passengers, both return booked.  [upsertDriver] and [createTrip] pass
    on the rowid 0 that [run] reads after the export: the trip row of the
    first call carries driver 0, the lookup of the second call, which joins
    the driver, does not find it, and a second trip row of the code is
    inserted; both passengers are attached to trip 0, not to a trip of the
    code. *)
Theorem second_booking_adds_a_trip :
  let s1 := @DBBooking.bookTrip Sample.with_foreign_keys
              (Sample.booking "Ada") Sample.ready in
  let s2 := @DBBooking.bookTrip Sample.with_foreign_keys
              (Sample.booking "Bola") (fst s1) in
  snd s1 = Ok (DBBooking.TripBooked 0 0 "TRP-20250101-AAAA" None)
  /\ snd s2 = Ok (DBBooking.TripBooked 0 0 "TRP-20250101-AAAA" None)
  /\ option_map
       (fun db => map (fun x => (trip_id x, booking_code x, trip_driver_id x))
                    (trips (tables db)))
       (_db (fst s2))
     = Some [(1, "TRP-20250101-AAAA", 0); (2, "TRP-20250101-AAAA", 1)]
  /\ option_map
       (fun db => map (fun p => (passenger_name p, passenger_trip_id p))
                    (passengers (tables db)))
       (_db (fst s2))
     = Some [("Ada", 0); ("Bola", 0)]
  /\ snd (DBBooking.getTripByBookingCode "TRP-20250101-AAAA" (fst s1))
     = Ok None.
Proof. vm_compute. repeat split. Qed.

(* ------------------------------------------------------------------------ *)
(** ** Routes in both directions *)

Lemma filter_map_stable {A} (p : A -> bool) (f : A -> A) (l : list A) :
  (forall x, p (f x) = p x) ->
  filter p (map f l) = map f (filter p l).
Proof.
  intros Hp. induction l as [| x l IH]; simpl; [reflexivity |].
  rewrite Hp. destruct (p x); simpl; congruence.
Qed.

Lemma NoDup_map_eq {A B} (f : A -> B) (l : list A) (x y : A) :
  NoDup (map f l) -> In x l -> In y l -> f x = f y -> x = y.
Proof.
  induction l as [| a l IH]; simpl; [easy |].
  intros Hn Hx Hy E. inversion Hn as [| ? ? Ha Hl]; subst.
  destruct Hx as [-> | Hx], Hy as [-> | Hy]; auto.
  - exfalso. apply Ha. rewrite E. now apply in_map.
  - exfalso. apply Ha. rewrite <- E. now apply in_map.
Qed.

Lemma repriced_matches a b v pa pn id_ r :
  DBConfig.route_matches a b v (repriced pa pn id_ r)
  = DBConfig.route_matches a b v r.
Proof. unfold repriced. destruct (route_id r =? id_); reflexivity. Qed.

Section RouteFacts.

Context `{Schema}.

(** [_upsertRoute], when it returns: the first route of the direction is
    repriced, or a route is added at the end. *)
Lemma upsertRoute_returns depId destId vehicleId pa pn st st1 db :
  _db st = Some db ->
  DBConfig._upsertRoute depId destId vehicleId pa pn st = (st1, Ok tt) ->
  exists db1,
    _db st1 = Some db1
    /\ routes (tables db1)
       = match DBConfig.find_route depId destId vehicleId (tables db) with
         | Some r0 => map (repriced pa pn (route_id r0)) (routes (tables db))
         | None =>
             (routes (tables db) ++
                [{| route_id := next_rowid (map route_id (routes (tables db)));
                    departure_id := depId; destination_id := destId;
                    route_vehicle_id := vehicleId;
                    price_ac := pa; price_no_ac := pn |}])%list
         end.
Proof.
  intros E Eu. unfold DBConfig._upsertRoute in Eu.
  erewrite bind_ok in Eu by (apply query_ready; exact E).
  unfold DBConfig.sql_route_ids, DBConfig.find_route in *.
  destruct (filter (DBConfig.route_matches depId destId vehicleId)
              (routes (tables db))) as [| r0 rest]; simpl in Eu |- *;
    apply bind_ok_inv in Eu as (s & res & Er & Eu); inversion Eu; subst;
    destruct (run_returns _ _ E Er) as (db1 & Edb & E1 & _);
    apply db_run_ok in Edb as (_ & T & _); simpl in T;
    exists (reopened db1); simpl; rewrite T; auto.
Qed.

End RouteFacts.

(** C4, as amended: with a database loaded, when [saveRoute] returns the
    two directions differ, and both routes exist; the forward route
    carries the fares given; the reverse route carries them if it did not
    exist before the call, and is otherwise the row it was (route ids
    being unique), with the fares it had. *)
Theorem saveRoute_both_directions `{Schema} (st st' : State) (db : Database)
  (departureId destinationId vehicleId : Z) (priceAc priceNoAc : option Z)
  (rows : list DBConfig.RouteRow) :
  _db st = Some db ->
  DBConfig.saveRoute departureId destinationId vehicleId priceAc priceNoAc st
  = (st', Ok rows) ->
  exists db' forward reverse,
    _db st' = Some db'
    /\ departureId <> destinationId
    /\ DBConfig.find_route departureId destinationId vehicleId (tables db')
       = Some forward
    /\ price_ac forward = priceAc /\ price_no_ac forward = priceNoAc
    /\ DBConfig.find_route destinationId departureId vehicleId (tables db')
       = Some reverse
    /\ match DBConfig.find_route destinationId departureId vehicleId
               (tables db) with
       | None => price_ac reverse = priceAc /\ price_no_ac reverse = priceNoAc
       | Some old =>
           NoDup (map route_id (routes (tables db))) -> reverse = old
       end.
Proof.
  intros E Es. unfold DBConfig.saveRoute in Es.
  destruct (Z.eqb_spec departureId destinationId) as [| Hne];
    [discriminate |].
  apply bind_ok_inv in Es as (s1 & [] & Eu1 & Es).
  destruct (upsertRoute_returns _ _ _ _ _ _ E Eu1) as (db1 & E1 & R1).
  erewrite bind_ok in Es by (apply query_ready; exact E1).
  apply bind_ok_inv in Es as (s2 & [] & Eu2 & Es).
  unfold DBConfig.getRoutes in Es. rewrite query_eq in Es.
  assert (st' = s2) by (destruct (_db s2); inversion Es; auto). subst s2.
  clear Es.
  (* the two directions after the forward upsert *)
  set (fwd := DBConfig.route_matches departureId destinationId vehicleId)
    in *.
  set (rev := DBConfig.route_matches destinationId departureId vehicleId)
    in *.
  assert (Hfr : forall r, fwd r = true -> rev r = false).
  { intros r Hf. unfold fwd, rev, DBConfig.route_matches in *.
    apply andb_true_iff in Hf as [Hf _]. apply andb_true_iff in Hf as [Hf _].
    apply Z.eqb_eq in Hf. rewrite Hf.
    destruct (Z.eqb_spec departureId destinationId);
      [contradiction | reflexivity]. }
  assert (F1 : exists f1,
             hd_error (filter fwd (routes (tables db1))) = Some f1
             /\ price_ac f1 = priceAc /\ price_no_ac f1 = priceNoAc).
  { rewrite R1. unfold DBConfig.find_route. fold fwd.
    destruct (filter fwd (routes (tables db))) as [| r0 rest] eqn:Ef; simpl.
    - rewrite filter_app, Ef. simpl.
      unfold fwd at 1, DBConfig.route_matches. simpl.
      rewrite !Z.eqb_refl. simpl. eauto.
    - rewrite filter_map_stable by (intros; apply repriced_matches).
      rewrite Ef. simpl. unfold repriced. rewrite Z.eqb_refl. simpl. eauto. }
  assert (V1 : match hd_error (filter rev (routes (tables db))) with
               | None => filter rev (routes (tables db1)) = []
               | Some old =>
                   exists r1, hd_error (filter rev (routes (tables db1)))
                              = Some r1
                              /\ (NoDup (map route_id (routes (tables db)))
                                  -> r1 = old)
               end).
  { rewrite R1. unfold DBConfig.find_route. fold fwd.
    destruct (filter fwd (routes (tables db))) as [| r0 rest] eqn:Ef; simpl.
    - rewrite filter_app. simpl.
      replace (rev _) with false.
      2:{ symmetry. apply Hfr. unfold fwd, DBConfig.route_matches. simpl.
          rewrite !Z.eqb_refl. reflexivity. }
      rewrite app_nil_r.
      destruct (filter rev (routes (tables db))) as [| old rest'];
        simpl; eauto.
    - rewrite filter_map_stable by (intros; apply repriced_matches).
      destruct (filter rev (routes (tables db))) as [| old rest'] eqn:Er;
        simpl; [reflexivity |].
      eexists. split; [reflexivity |]. intros Hn. unfold repriced.
      destruct (Z.eqb_spec (route_id old) (route_id r0)) as [Eid |];
        [| reflexivity].
      assert (Hold : In old (filter rev (routes (tables db))))
        by (rewrite Er; left; reflexivity).
      assert (Hr0 : In r0 (filter fwd (routes (tables db))))
        by (rewrite Ef; left; reflexivity).
      apply filter_In in Hold as [Hold Hrev].
      apply filter_In in Hr0 as [Hr0 Hfwd].
      assert (old = r0) by (eapply NoDup_map_eq; eauto). subst old.
      rewrite (Hfr _ Hfwd) in Hrev. discriminate. }
  destruct F1 as (f1 & Ef1 & Pa & Pn).
  unfold DBConfig.sql_route_ids in Eu2. fold rev in Eu2.
  unfold DBConfig.find_route. fold fwd rev.
  destruct (filter rev (routes (tables db1))) as [| r1 rest1] eqn:Er1;
    simpl in Eu2.
  - (* the reverse route is created *)
    destruct (upsertRoute_returns _ _ _ _ _ _ E1 Eu2) as (db2 & E2 & R2).
    unfold DBConfig.find_route in R2. fold rev in R2.
    rewrite Er1 in R2. simpl in R2.
    exists db2. rewrite R2, !filter_app. simpl.
    replace (rev _) with true
      by (unfold rev, DBConfig.route_matches; simpl;
          rewrite !Z.eqb_refl; reflexivity).
    rewrite Er1. simpl.
    destruct (filter fwd (routes (tables db1))) as [| f1' rest] eqn:Ef;
      [discriminate |]. simpl in Ef1. inversion Ef1; subst f1'. simpl.
    eexists f1, _. repeat split; auto.
    destruct (hd_error (filter rev (routes (tables db)))) as [old |];
      simpl; [| auto].
    destruct V1 as (r1 & Hr1 & _). discriminate.
  - (* the reverse route was there *)
    inversion Eu2; subst. exists db1, f1, r1. rewrite Er1. simpl.
    repeat split; auto.
    destruct (hd_error (filter rev (routes (tables db)))) as [old |].
    + destruct V1 as (r1' & Hr1 & Hold). simpl in Hr1.
      inversion Hr1; subst. exact Hold.
    + discriminate.
Qed.

Lemma saveRoute_both_directions_witness :
  exists db' forward reverse,
    _db Sample.saved_twice = Some db'
    /\ 1 <> 2
    /\ DBConfig.find_route 1 2 1 (tables db') = Some forward
    /\ price_ac forward = Some 20000 /\ price_no_ac forward = Some 18000
    /\ DBConfig.find_route 2 1 1 (tables db') = Some reverse
    /\ match DBConfig.find_route 2 1 1 (tables Sample.saved_once_db) with
       | None =>
           price_ac reverse = Some 20000 /\ price_no_ac reverse = Some 18000
       | Some old =>
           NoDup (map route_id (routes (tables Sample.saved_once_db))) ->
           reverse = old
       end.
Proof.
  apply (@saveRoute_both_directions Sample.no_constraints
           Sample.saved_once Sample.saved_twice Sample.saved_once_db 1 2 1
           (Some 20000) (Some 18000) Sample.listed_twice);
    vm_compute; reflexivity.
Defined.

(** C4, the claim as stated fails: with the routes Lagos to Abuja and
    Abuja to Lagos both at 15000/12000, [saveRoute] of Lagos to Abuja at
    20000/18000 returns, and the route Abuja to Lagos still carries
    15000/12000. *)
Lemma reverse_route_keeps_old_fares :
  let call := @DBConfig.saveRoute Sample.no_constraints 1 2 1 (Some 20000)
                (Some 18000) Sample.saved_once in
  snd call = Ok Sample.listed_twice
  /\ option_map
       (fun db =>
          option_map (fun r => (price_ac r, price_no_ac r))
            (DBConfig.find_route 1 2 1 (tables db)))
       (_db (fst call))
     = Some (Some (Some 20000, Some 18000))
  /\ option_map
       (fun db =>
          option_map (fun r => (price_ac r, price_no_ac r))
            (DBConfig.find_route 2 1 1 (tables db)))
       (_db (fst call))
     = Some (Some (Some 15000, Some 12000)).
Proof. vm_compute. repeat split; reflexivity. Qed.

(* ------------------------------------------------------------------------ *)
(** ** Initialisation *)

(** C10: once a database is loaded, [init] returns it and does nothing
    else: the module's variables, the backing store and the record of what
    was asked of the environment (no read, no fetch, no write) are as
    before. *)
Theorem init_idempotent (st : State) (db : Database) :
  _db st = Some db -> DB.init st = (st, Ok (Some db)).
Proof.
  intros E. unfold DB.init, bind, get. rewrite E. reflexivity.
Qed.

Lemma init_idempotent_witness :
  DB.init Sample.ready = (Sample.ready, Ok (Some Sample.ready_db)).
Proof. apply (init_idempotent Sample.ready). vm_compute. reflexivity. Defined.

(** C7, as amended: while no database is loaded, [query], [run],
    [transaction] and [exportDB] throw the not-initialised error and leave
    the module and its environment as they were; [restoreDB] has no such
    guard: once the sql.js constructor is loaded it installs the file as
    the database and asks IndexedDB to write the image, which is stored
    when the store answers. *)
Theorem guarded_calls_fail_fast `{Schema} (st : State) :
  _db st = None ->
  (forall R (sql : Tables -> list R),
      DB.query sql st
      = (st, Throw (Error_ "[DB] Not initialised. Call DB.init() first.")))
  /\ (forall sql,
         DB.run sql st
         = (st, Throw (Error_ "[DB] Not initialised. Call DB.init() first.")))
  /\ (forall fn,
         DB.transaction fn st = (st, Throw (Error_ "[DB] Not initialised.")))
  /\ (forall filename,
         DB.exportDB filename st
         = (st, Throw (Error_ "[DB] Not initialised.")))
  /\ (forall file st' r,
         _SQL st = true ->
         DB.restoreDB file st = (st', r) ->
         (exists db', _db st' = Some db' /\ tables db' = file)
         /\ In (IdbPut file) (trace (env st'))
         /\ (r = Ok tt -> idb_value (env st') = Some file)
         /\ ((forall msg, hd_error (idb_faults (env st)) <> Some (Some msg))
             -> r = Ok tt)).
Proof.
  intros E. split; [| split; [| split; [| split]]].
  - intros R sql. rewrite query_eq, E. reflexivity.
  - intros sql. unfold DB.run, bind, require_db. rewrite E. reflexivity.
  - intros fn. unfold DB.transaction, DB.transaction_of, bind, require_db.
    rewrite E. reflexivity.
  - intros filename. unfold DB.exportDB, bind, require_db. rewrite E.
    reflexivity.
  - intros file st' r L Er.
    destruct (restoreDB_loaded _ _ L Er) as (E' & _ & V & A).
    split; [eexists; split; [exact E' | reflexivity] |].
    split; [| split; assumption].
    revert Er. unfold DB.restoreDB, bind, get, modify, on_db,
      DB.db_export, DB._saveToIDB, DB.idb_request, console_log, modify.
    simpl. rewrite L. simpl.
    destruct (idb_faults (env st)) as [| [msg |] rest]; simpl;
      intros E2; inversion E2; subst; simpl; auto.
Qed.

Lemma guarded_calls_fail_fast_witness :
  DB.exportDB "manifest-backup.db" (initial Sample.browser)
  = (initial Sample.browser, Throw (Error_ "[DB] Not initialised.")).
Proof.
  apply (@guarded_calls_fail_fast Sample.no_constraints
           (initial Sample.browser)).
  reflexivity.
Defined.

(** C7, the claim as stated fails.  For [restoreDB]: called after [init]
    has failed on the seed file, it does not throw; it loads the file and
    writes it to IndexedDB, and [query] then answers although [init] has
    not completed.  For the guarded calls: when [init] fails on its first
    write to IndexedDB, it has assigned [_db] already, and [query] answers
    after it; the guard tests [_db], not whether [init] has completed. *)
Lemma restoreDB_before_init_completes :
  let restored := DB.restoreDB Sample.seed_tables Sample.half_initialised in
  let failed := DB.init (initial Sample.store_full) in
  _db Sample.half_initialised = None
  /\ snd restored = Ok tt
  /\ _db (fst restored) <> None
  /\ idb_value (env (fst restored)) <> idb_value (env Sample.half_initialised)
  /\ snd (DB.query places (fst restored)) = Ok (places Sample.seed_tables)
  /\ snd failed = Throw (DOMException "QuotaExceededError")
  /\ snd (DB.query places (fst failed)) = Ok (places Sample.seed_tables).
Proof. vm_compute. repeat split; discriminate. Qed.

(* ------------------------------------------------------------------------ *)
(** ** Booking codes *)

Lemma toUpperCase_length (s : string) :
  String.length (Js.toUpperCase s) = String.length s.
Proof. induction s; simpl; congruence. Qed.

Lemma digits36_length (ds : list nat) :
  String.length (BookingCode.digits36 ds) = List.length ds.
Proof. induction ds; simpl; congruence. Qed.

Lemma substring_length (n m : nat) (s : string) :
  String.length (String.substring n m s)
  = Nat.min m (String.length s - n).
Proof.
  revert n m. induction s as [| c s IH]; intros [| n] [| m]; simpl;
    rewrite ?IH; simpl; rewrite ?Nat.sub_0_r; auto.
Qed.

(** X19: the token has as many characters as the rendering has digits
    after the point, up to four. *)
Lemma token_length (random : list nat) :
  String.length (BookingCode.token random)
  = Nat.min 4 (List.length random).
Proof.
  unfold BookingCode.token. rewrite toUpperCase_length.
  destruct random as [| d ds]; [reflexivity |].
  unfold BookingCode.toString36, Js.substring.
  rewrite substring_length. cbn [String.append String.length].
  rewrite digits36_length. cbn [List.length]. lia.
Qed.

(** C9: on the day 2025-04-20, the draw 0.5, whose radix-36 rendering is
    [0.i], gives a booking code whose token has one character; the draw 0
    gives an empty token. *)
Theorem booking_code_short_token :
  BookingCode.generateBookingCode Sample.date_20250420 [18%nat]
  = "TRP-20250420-I"
  /\ BookingCode.generateBookingCode Sample.date_20250420 []
     = "TRP-20250420-".
Proof. split; reflexivity. Qed.

(* ------------------------------------------------------------------------ *)
(** * Further properties of the engine *)

Unset Implicit Arguments.

(** ** Initialisation, case by case *)

Lemma store_answers_next n (e : Env) :
  store_answers (S n) e ->
  forall msg, hd_error (idb_faults e) <> Some (Some msg).
Proof.
  unfold store_answers. intros A msg E. apply (A msg).
  destruct (idb_faults e); inversion E. left. reflexivity.
Qed.

(** X1: on a first run (nothing in IndexedDB, the seed file served, the
    two IndexedDB requests answered) [init] loads the seed image, writes it
    to IndexedDB at once, turns foreign keys on and returns the database;
    what it asked of its environment is, in order: sql.js, the read, the
    fetch of [data/manifest.db], the write. *)
Theorem init_first_run (e : Env) (res : Response) :
  sqljs_error e = None -> idb_value e = None ->
  seed e = inr res -> ok res = true ->
  store_answers 2 e ->
  exists st' db,
    DB.init (initial e) = (st', Ok (Some db))
    /\ _db st' = Some db /\ _SQL st' = true /\ _dirty st' = false
    /\ tables db = arrayBuffer res
    /\ foreign_keys db = true /\ savepoint db = None
    /\ idb_value (env st') = Some (arrayBuffer res)
    /\ trace (env st')
       = ([ConsoleLog "[DB] Loaded from seed file and saved to IndexedDB";
          IdbPut (arrayBuffer res); Fetch DB.DB_URL; IdbGet; InitSqlJs]
           ++ trace e)%list.
Proof.
  intros Hs Hv Hseed Hok A.
  destruct e as [se iv faults sd ck tr]. simpl in *. subst.
  unfold store_answers in A. simpl in A.
  unfold DB.init, bind, get, DB.initSqlJs, DB._loadFromIDB, DB.fetch,
    DB.db_export, DB._saveToIDB, DB.idb_request, console_log, modify, on_db,
    ret, throw. simpl.
  destruct faults as [| [m |] [| [m' |] rest]]; simpl in *;
    try (exfalso; eapply A; eauto; fail);
    rewrite Hok; simpl; do 2 eexists; repeat split; reflexivity.
Qed.

Lemma init_first_run_witness :
  exists st' db,
    DB.init (initial Sample.browser) = (st', Ok (Some db))
    /\ _db st' = Some db /\ _SQL st' = true /\ _dirty st' = false
    /\ tables db = Sample.seed_tables
    /\ foreign_keys db = true /\ savepoint db = None
    /\ idb_value (env st') = Some Sample.seed_tables
    /\ trace (env st')
       = ([ConsoleLog "[DB] Loaded from seed file and saved to IndexedDB";
          IdbPut Sample.seed_tables; Fetch DB.DB_URL; IdbGet; InitSqlJs]
           ++ trace Sample.browser)%list.
Proof.
  apply (init_first_run Sample.browser
           {| ok := true; status := 200; arrayBuffer := Sample.seed_tables |});
    try reflexivity.
  intros msg [].
Defined.

(** X2: when IndexedDB holds an image and answers the read, [init] loads
    that image and turns foreign keys on; it does not fetch the seed file
    and writes nothing. *)
Theorem init_from_store (e : Env) (saved : Image) :
  sqljs_error e = None -> idb_value e = Some saved ->
  store_answers 1 e ->
  exists st' db,
    DB.init (initial e) = (st', Ok (Some db))
    /\ _db st' = Some db /\ _SQL st' = true /\ _dirty st' = false
    /\ tables db = saved
    /\ foreign_keys db = true /\ savepoint db = None
    /\ idb_value (env st') = Some saved
    /\ trace (env st')
       = ([ConsoleLog "[DB] Loaded from IndexedDB"; IdbGet; InitSqlJs]
           ++ trace e)%list.
Proof.
  intros Hs Hv A.
  destruct e as [se iv faults sd ck tr]. simpl in *. subst.
  unfold store_answers in A. simpl in A.
  unfold DB.init, bind, get, DB.initSqlJs, DB._loadFromIDB,
    DB.idb_request, console_log, modify, on_db, ret. simpl.
  destruct faults as [| [m |] rest]; simpl in *;
    try (exfalso; eapply A; eauto; fail);
    do 2 eexists; repeat split; reflexivity.
Qed.

(** X3: on a first run on which the server answers the seed request with
    a status that is not ok, [init] throws [Failed to fetch seed DB:] and
    the status; no database is loaded and IndexedDB stays empty. *)
Theorem init_seed_not_served (e : Env) (res : Response) :
  sqljs_error e = None -> idb_value e = None ->
  seed e = inr res -> ok res = false ->
  store_answers 1 e ->
  exists st',
    DB.init (initial e)
    = (st', Throw (Error_ ("Failed to fetch seed DB: "
                             ++ Js.String_ (status res))))
    /\ _db st' = None /\ _SQL st' = true
    /\ idb_value (env st') = None
    /\ trace (env st')
       = ([Fetch DB.DB_URL; IdbGet; InitSqlJs] ++ trace e)%list.
Proof.
  intros Hs Hv Hseed Hok A.
  destruct e as [se iv faults sd ck tr]. simpl in *. subst.
  unfold store_answers in A. simpl in A.
  unfold DB.init, bind, get, DB.initSqlJs, DB._loadFromIDB, DB.fetch,
    DB.idb_request, throw, ret. simpl.
  destruct faults as [| [m |] rest]; simpl in *;
    try (exfalso; eapply A; eauto; fail);
    rewrite Hok; simpl; eexists; repeat split; reflexivity.
Qed.

Lemma init_seed_not_served_witness :
  exists st',
    DB.init (initial Sample.offline)
    = (st', Throw (Error_ "Failed to fetch seed DB: 404"))
    /\ _db st' = None /\ _SQL st' = true
    /\ idb_value (env st') = None
    /\ trace (env st')
       = ([Fetch DB.DB_URL; IdbGet; InitSqlJs] ++ trace Sample.offline)%list.
Proof.
  apply (init_seed_not_served Sample.offline
           {| ok := false; status := 404;
              arrayBuffer := Sample.seed_tables |});
    try reflexivity.
  intros msg [].
Defined.

Lemma init_from_store_witness :
  exists st' db,
    DB.init (reload Sample.booked) = (st', Ok (Some db))
    /\ _db st' = Some db /\ _SQL st' = true /\ _dirty st' = false
    /\ tables db = tables Sample.booked_db
    /\ foreign_keys db = true /\ savepoint db = None
    /\ idb_value (env st') = Some (tables Sample.booked_db)
    /\ trace (env st')
       = ([ConsoleLog "[DB] Loaded from IndexedDB"; IdbGet; InitSqlJs]
            ++ trace (env Sample.booked))%list.
Proof.
  apply (init_from_store (env Sample.booked) (tables Sample.booked_db));
    try (vm_compute; reflexivity).
  intros msg [].
Defined.

(** X4: on a first run on which IndexedDB answers the read and refuses
    the write of the seed image, [init] throws the store's error after the
    database has been assigned and before foreign keys are turned on: the
    module is left with the seed database loaded, foreign keys off, and
    nothing stored; a later [init] returns that database as it is. *)
Theorem init_first_write_refused (e : Env) (res : Response) (msg : string) :
  sqljs_error e = None -> idb_value e = None ->
  seed e = inr res -> ok res = true ->
  store_answers 1 e ->
  hd_error (tl (idb_faults e)) = Some (Some msg) ->
  exists st' db,
    DB.init (initial e) = (st', Throw (DOMException msg))
    /\ _db st' = Some db
    /\ tables db = arrayBuffer res
    /\ foreign_keys db = false
    /\ idb_value (env st') = None
    /\ DB.init st' = (st', Ok (Some db)).
Proof.
  intros Hs Hv Hseed Hok A F.
  destruct e as [se iv faults sd ck tr]. simpl in *. subst.
  unfold store_answers in A. simpl in A.
  unfold DB.init, bind, get, DB.initSqlJs, DB._loadFromIDB, DB.fetch,
    DB.db_export, DB._saveToIDB, DB.idb_request, console_log, modify, on_db,
    ret, throw. simpl.
  destruct faults as [| [m |] [| [m' |] rest]]; simpl in *;
    try discriminate; try (exfalso; eapply A; eauto; fail).
  inversion F; subst. rewrite Hok. simpl.
  do 2 eexists. repeat split; reflexivity.
Qed.

Lemma init_first_write_refused_witness :
  exists st' db,
    DB.init (initial Sample.store_full)
    = (st', Throw (DOMException "QuotaExceededError"))
    /\ _db st' = Some db
    /\ tables db = Sample.seed_tables
    /\ foreign_keys db = false
    /\ idb_value (env st') = None
    /\ DB.init st' = (st', Ok (Some db)).
Proof.
  apply (init_first_write_refused Sample.store_full
           {| ok := true; status := 200; arrayBuffer := Sample.seed_tables |}
           "QuotaExceededError");
    try reflexivity.
  intros msg [E | []]. discriminate.
Defined.

(** ** What a call that returns has stored *)

Section Durability.

Context `{Schema}.

(** [persist] on a changed database, when the store answers: the export,
    which opens the connection anew, one write of the exported image, one
    console line, the flag cleared. *)
Lemma persist_writes (st : State) (db : Database) :
  _db st = Some db -> _dirty st = true ->
  (forall msg, hd_error (idb_faults (env st)) <> Some (Some msg)) ->
  DB.persist st
  = (set_env (set_dirty (set_db st (Some (reopened db))) false)
       (emit (ConsoleLog "[DB] Persisted to IndexedDB")
          (answered (Some (export db))
             (emit (IdbPut (export db)) (env st)))),
     Ok tt).
Proof.
  intros E D A.
  unfold DB.persist, bind, get, DB.db_export, DB._saveToIDB, DB.idb_request,
    console_log, modify. rewrite E, D. simpl. rewrite E. simpl.
  destruct (idb_faults (env st)) as [| [m |] rest] eqn:F; simpl;
    try reflexivity.
  now destruct (A m).
Qed.


(** A statement run through the handle that returns was accepted. *)
Lemma runInTransaction_returns (sql : Stmt) (st st' : State)
  (r : DB.RunResult) (db : Database) :
  _db st = Some db ->
  DB._runInTransaction sql st = (st', Ok r) ->
  exists db',
    db_run (clock (env st)) sql db = inr db'
    /\ st' = set_db st (Some db').
Proof.
  intros E Er. unfold DB._runInTransaction in Er.
  apply bind_ok_inv in Er as (s & [] & E1 & E2).
  unfold DB.db_exec, bind, get, on_db in E1. rewrite E in E1.
  destruct (db_run (clock (env st)) sql db) as [e | db'];
    inversion E1; subst.
  unfold DB.run_result in E2. simpl in E2. inversion E2; subst.
  exists db'. auto.
Qed.

(** A [transaction] that returns: the unit of work returned, [COMMIT]
    ended the transaction, and the one export went through. *)
Lemma transaction_returns (fn : DB.Closure) (st st' : State) (db : Database) :
  _db st = Some db ->
  DB.transaction fn st = (st', Ok tt) ->
  savepoint db = None
  /\ exists s1 db1,
       DB.call_closure fn (fst (on_db db_begin st)) = (s1, Ok tt)
       /\ _db s1 = Some db1
       /\ st' = set_env
                  (set_dirty
                     (set_db s1
                        (Some {| tables := tables db1; savepoint := None;
                                 foreign_keys := false;
                                 rows_modified := 0;
                                 last_insert_rowid := 0 |}))
                     false)
                  (emit (ConsoleLog "[DB] Persisted to IndexedDB")
                     (answered (Some (tables db1))
                        (emit (IdbPut (tables db1)) (env st))))
       /\ foreign_keys db1 = foreign_keys db.
Proof.
  intros E Et. unfold DB.transaction, DB.transaction_of in Et.
  erewrite bind_ok in Et by (apply require_db_ready; exact E).
  apply bind_ok_inv in Et as (sb & [] & Eb & Et).
  unfold on_db in Eb. rewrite E in Eb. unfold db_begin in Eb.
  destruct (savepoint db) eqn:Es; [discriminate |].
  inversion Eb; subst sb. clear Eb. split; [reflexivity |].
  unfold on_db. rewrite E. unfold db_begin. rewrite Es. simpl.
  set (db_b := {| tables := tables db; savepoint := Some (tables db);
                  foreign_keys := foreign_keys db;
                  rows_modified := rows_modified db;
                  last_insert_rowid := last_insert_rowid db |}) in *.
  assert (Ho : open_at (tables db) (set_db st (Some db_b)))
    by (exists db_b; auto).
  unfold try_catch in Et.
  destruct (DB.call_closure fn (set_db st (Some db_b))) as [s1 [[] | e]] eqn:Ec.
  2:{ erewrite bind_throw in Et by exact Ec.
      destruct (on_db db_rollback s1) as [s2 [[] | e2]] eqn:Er.
      - erewrite bind_ok in Et by exact Er. discriminate.
      - erewrite bind_throw in Et by exact Er. discriminate. }
  pose proof (call_closure_session _ Ho Ec) as (S1 & S2 & S3 & S4).
  simpl in S1, S2, S3, S4.
  destruct (_db s1) as [db1 |] eqn:E1; [| tauto].
  destruct S4 as [S4 S5]. simpl in S4, S5.
  exists s1, db1. split; [first [reflexivity | assumption] |].
  split; [first [reflexivity | assumption] |].
  split; [| exact S5].
  erewrite bind_ok in Et by exact Ec.
  erewrite bind_ok in Et
    by (eapply on_db_ok; [exact E1 | unfold db_commit; rewrite S4; reflexivity]).
  erewrite bind_ok in Et by (unfold modify; reflexivity).
  match type of Et with
  | match ?p with _ => _ end = _ => destruct p as [s4 [[] | e4]] eqn:Ep
  end.
  2:{ destruct (on_db db_rollback s4) as [s5 [[] | e5]] eqn:Er.
      - erewrite bind_ok in Et by exact Er. discriminate.
      - erewrite bind_throw in Et by exact Er. discriminate. }
  inversion Et; subst s4. clear Et.
  pose proof (persist_inv _ Ep) as (_ & _ & P).
  destruct P as [[_ [P | P]] | (dbc & Edbc & _ & _ & _ & _ & A)];
    try (simpl in P; discriminate).
  simpl in Edbc. inversion Edbc; subst dbc. clear Edbc.
  erewrite persist_writes in Ep; [| reflexivity | reflexivity | exact A].
  inversion Ep. simpl. rewrite S3. reflexivity.
Qed.

End Durability.



(** X6: a [transaction] whose unit of work returns, the store answering:
    the call returns with the transaction ended, the tables those the unit
    of work left, and [_dirty] cleared; the whole batch is written to
    IndexedDB once, after the commit (one write and one console line are
    all that is added to what was asked of the environment), and the
    stored image is that of the tables.  The export of that write has
    opened the connection anew: foreign keys are off after the call. *)
Theorem transaction_commits_once `{Schema} (fn : DB.Closure)
  (st s1 : State) (db : Database) :
  _db st = Some db -> savepoint db = None ->
  DB.call_closure fn (fst (on_db db_begin st)) = (s1, Ok tt) ->
  store_answers 1 (env st) ->
  exists st' db1 db',
    DB.transaction fn st = (st', Ok tt)
    /\ _db s1 = Some db1 /\ _db st' = Some db'
    /\ tables db' = tables db1 /\ savepoint db' = None
    /\ foreign_keys db' = false
    /\ _dirty st' = false
    /\ idb_value (env st') = Some (tables db1)
    /\ trace (env st')
       = ([ConsoleLog "[DB] Persisted to IndexedDB"; IdbPut (tables db1)]
            ++ trace (env st))%list.
Proof.
  intros E Es Ec A.
  unfold on_db, db_begin in Ec. rewrite E, Es in Ec. simpl in Ec.
  set (db_b := {| tables := tables db; savepoint := Some (tables db);
                  foreign_keys := foreign_keys db;
                  rows_modified := rows_modified db;
                  last_insert_rowid := last_insert_rowid db |}) in *.
  assert (Ho : open_at (tables db) (set_db st (Some db_b)))
    by (exists db_b; auto).
  pose proof (call_closure_session _ Ho Ec) as (S1 & S2 & S3 & S4).
  simpl in S1, S2, S3, S4.
  destruct (_db s1) as [db1 |] eqn:E1; [| tauto].
  destruct S4 as [S4 S5]. simpl in S4, S5.
  set (db_c := {| tables := tables db1; savepoint := None;
                  foreign_keys := foreign_keys db1;
                  rows_modified := rows_modified db1;
                  last_insert_rowid := last_insert_rowid db1 |}).
  eexists _, db1, (reopened db_c). split.
  - unfold DB.transaction, DB.transaction_of.
    erewrite bind_ok by (apply require_db_ready; exact E).
    erewrite bind_ok
      by (eapply on_db_ok;
          [exact E | unfold db_begin; rewrite Es; reflexivity]).
    fold db_b. unfold try_catch.
    erewrite bind_ok by exact Ec.
    erewrite bind_ok
      by (eapply on_db_ok;
          [exact E1 | unfold db_commit; rewrite S4; reflexivity]).
    fold db_c. erewrite bind_ok by (unfold modify; reflexivity).
    erewrite (persist_writes _ db_c);
      [reflexivity | reflexivity | reflexivity |].
    simpl. rewrite S3. apply (store_answers_next 0). exact A.
  - simpl. rewrite S3. repeat split; auto.
Qed.

Lemma transaction_commits_once_witness :
  exists st' db1 db',
    @DBHistory.deleteTrip Sample.no_constraints 1 Sample.booked = (st', Ok tt)
    /\ _db Sample.deleting = Some db1 /\ _db st' = Some db'
    /\ tables db' = tables db1 /\ savepoint db' = None
    /\ foreign_keys db' = false
    /\ _dirty st' = false
    /\ idb_value (env st') = Some (tables db1)
    /\ trace (env st')
       = ([ConsoleLog "[DB] Persisted to IndexedDB"; IdbPut (tables db1)]
            ++ trace (env Sample.booked))%list.
Proof.
  apply (@transaction_commits_once Sample.no_constraints
           Sample.delete_trip_1 Sample.booked Sample.deleting
           Sample.booked_db);
    try (vm_compute; reflexivity).
  intros msg [].
Defined.

(** X7: a [deleteTrip] that returns has removed the trip and all its
    passengers, and nothing else: the other trips and passengers, and the
    places, vehicles, routes and drivers, are as before; the transaction
    is ended and IndexedDB holds the new image. *)
Theorem deleteTrip_removes `{Schema} (tripId : Z) (st st' : State)
  (db : Database) :
  _db st = Some db ->
  DBHistory.deleteTrip tripId st = (st', Ok tt) ->
  exists db',
    _db st' = Some db'
    /\ trips (tables db')
       = filter (fun x => negb (trip_id x =? tripId)) (trips (tables db))
    /\ passengers (tables db')
       = filter (fun p => negb (passenger_trip_id p =? tripId))
           (passengers (tables db))
    /\ places (tables db') = places (tables db)
    /\ vehicles (tables db') = vehicles (tables db)
    /\ routes (tables db') = routes (tables db)
    /\ drivers (tables db') = drivers (tables db)
    /\ savepoint db' = None
    /\ idb_value (env st') = Some (tables db').
Proof.
  intros E Ed. unfold DBHistory.deleteTrip in Ed.
  destruct (transaction_returns _ _ _ _ E Ed)
    as (Es & s1 & db1 & Ec & E1 & -> & _).
  unfold on_db, db_begin in Ec. rewrite E, Es in Ec. simpl in Ec.
  set (db_b := {| tables := tables db; savepoint := Some (tables db);
                  foreign_keys := foreign_keys db;
                  rows_modified := rows_modified db;
                  last_insert_rowid := last_insert_rowid db |}) in *.
  unfold bind, DB.attempt in Ec.
  destruct (DB._runInTransaction (DeletePassengersOfTrip tripId)
              (set_db st (Some db_b))) as [sa [ra | ea]] eqn:Ea;
    simpl in Ec; [| discriminate].
  destruct (runInTransaction_returns _ (set_db st (Some db_b)) _ _ db_b
              eq_refl Ea) as (dba & Ra & ->).
  unfold bind, DB.attempt in Ec.
  destruct (DB._runInTransaction (DeleteTrip tripId)
              (set_db (set_db st (Some db_b)) (Some dba)))
    as [sb [rb | eb]] eqn:Eb; simpl in Ec; [| discriminate].
  destruct (runInTransaction_returns _
              (set_db (set_db st (Some db_b)) (Some dba)) _ _ dba
              eq_refl Eb) as (dbb & Rb & ->).
  inversion Ec; subst s1. clear Ec. simpl in E1. inversion E1; subst db1.
  apply db_run_ok in Ra as (_ & Ta & _). apply db_run_ok in Rb as (_ & Tb & _).
  simpl in Ta, Tb.
  eexists. split; [reflexivity |]. simpl. rewrite Tb, Ta. simpl.
  repeat split; reflexivity.
Qed.

Lemma deleteTrip_removes_witness :
  exists db',
    _db Sample.deleted = Some db'
    /\ trips (tables db')
       = filter (fun x => negb (trip_id x =? 1))
           (trips (tables Sample.full_db))
    /\ passengers (tables db')
       = filter (fun p => negb (passenger_trip_id p =? 1))
           (passengers (tables Sample.full_db))
    /\ places (tables db') = places (tables Sample.full_db)
    /\ vehicles (tables db') = vehicles (tables Sample.full_db)
    /\ routes (tables db') = routes (tables Sample.full_db)
    /\ drivers (tables db') = drivers (tables Sample.full_db)
    /\ savepoint db' = None
    /\ idb_value (env Sample.deleted) = Some (tables db').
Proof.
  apply (@deleteTrip_removes Sample.no_constraints 1 Sample.full
           Sample.deleted Sample.full_db);
    vm_compute; reflexivity.
Defined.

(* ------------------------------------------------------------------------ *)
(** * Further properties of booking codes *)

Lemma in_range_dec (P : Z -> bool) (lo : Z) (n : nat) :
  forallb (fun k => P (lo + Z.of_nat k)) (seq 0 n) = true ->
  forall z, lo <= z < lo + Z.of_nat n -> P z = true.
Proof.
  intros F z Hz. rewrite forallb_forall in F.
  specialize (F (Z.to_nat (z - lo))).
  replace (lo + Z.of_nat (Z.to_nat (z - lo))) with z in F by lia.
  apply F. apply in_seq. lia.
Qed.

Lemma year_four_digits (y : Z) :
  1000 <= y <= 9999 -> four_digits (Js.String_ y) = true.
Proof.
  intros Hy.
  apply (in_range_dec (fun z => four_digits (Js.String_ z)) 1000
           (Z.to_nat 9000));
    [vm_compute; reflexivity | lia].
Qed.

Lemma padded_two_digits (n : Z) :
  0 <= n <= 99 -> two_digits (Js.padStart 2 "0" (Js.String_ n)) = true.
Proof.
  intros Hn.
  apply (in_range_dec
           (fun z => two_digits (Js.padStart 2 "0" (Js.String_ z))) 0 100);
    [vm_compute; reflexivity | lia].
Qed.

Lemma digit36_upper (d : nat) :
  (d < 36)%nat -> is_upper_alnum (Js.upper_char (BookingCode.digit36 d)) = true.
Proof.
  intros Hd.
  assert (F : forallb (fun k => is_upper_alnum
                                  (Js.upper_char (BookingCode.digit36 k)))
                (seq 0 36) = true) by (vm_compute; reflexivity).
  rewrite forallb_forall in F. apply F. apply in_seq. lia.
Qed.

Lemma four_digits_chars (s : string) :
  four_digits s = true ->
  exists a b c d,
    s = String a (String b (String c (String d "")))
    /\ is_digit a = true /\ is_digit b = true
    /\ is_digit c = true /\ is_digit d = true.
Proof.
  unfold four_digits.
  destruct s as [| a [| b [| c [| d [| ? ?]]]]]; simpl; try discriminate.
  intros F. repeat (apply andb_true_iff in F as [? F]).
  exists a, b, c, d. auto.
Qed.

Lemma two_digits_chars (s : string) :
  two_digits s = true ->
  exists a b,
    s = String a (String b "") /\ is_digit a = true /\ is_digit b = true.
Proof.
  unfold two_digits.
  destruct s as [| a [| b [| ? ?]]]; simpl; try discriminate.
  intros F. repeat (apply andb_true_iff in F as [? F]).
  exists a, b. auto.
Qed.

(** X8: for a date with a four-digit year, and a draw whose radix-36
    rendering has at least four digits after the point, the booking code
    has the form [TRP-YYYYMMDD-XXXX]; its token is the first four of these
    digits, in upper case. *)
Theorem booking_code_well_formed (date : BookingCode.Date)
  (d1 d2 d3 d4 : nat) (more : list nat) :
  1000 <= BookingCode.getFullYear date <= 9999 ->
  0 <= BookingCode.getMonth date <= 11 ->
  1 <= BookingCode.getDate date <= 31 ->
  (d1 < 36 /\ d2 < 36 /\ d3 < 36 /\ d4 < 36)%nat ->
  let code := BookingCode.generateBookingCode date
                (d1 :: d2 :: d3 :: d4 :: more) in
  is_booking_code code = true
  /\ String.substring 13 4 code
     = Js.toUpperCase (BookingCode.digits36 [d1; d2; d3; d4]).
Proof.
  intros Hy Hm Hd (H1 & H2 & H3 & H4) code. subst code.
  unfold BookingCode.generateBookingCode, BookingCode.token,
    BookingCode.toString36.
  destruct (four_digits_chars _ (year_four_digits _ Hy))
    as (y1 & y2 & y3 & y4 & -> & Y1 & Y2 & Y3 & Y4).
  destruct (two_digits_chars _
              (padded_two_digits (BookingCode.getMonth date + 1)
                 ltac:(lia)))
    as (m1 & m2 & -> & M1 & M2).
  destruct (two_digits_chars _
              (padded_two_digits (BookingCode.getDate date) ltac:(lia)))
    as (e1 & e2 & -> & E1 & E2).
  assert (T : Js.substring 2 6
                ("0." ++ BookingCode.digits36 (d1 :: d2 :: d3 :: d4 :: more))
              = BookingCode.digits36 [d1; d2; d3; d4]).
  { unfold Js.substring.
    cbn [BookingCode.digits36 String.append String.length Nat.min Nat.max
           Nat.sub String.substring].
    destruct (BookingCode.digits36 more); reflexivity. }
  rewrite T. cbn [BookingCode.digits36 Js.toUpperCase String.append].
  split; [| reflexivity].
  unfold is_booking_code.
  cbn [String.length String.substring all_chars Nat.eqb].
  rewrite Y1, Y2, Y3, Y4, M1, M2, E1, E2.
  rewrite !digit36_upper by assumption. reflexivity.
Qed.

Lemma booking_code_well_formed_witness :
  let code := BookingCode.generateBookingCode Sample.date_20250420
                [0; 0; 10; 3; 7; 35]%nat in
  is_booking_code code = true
  /\ String.substring 13 4 code
     = Js.toUpperCase (BookingCode.digits36 [0; 0; 10; 3]%nat).
Proof.
  apply (booking_code_well_formed Sample.date_20250420 0 0 10 3 [7; 35]%nat);
    simpl; lia.
Defined.

(* ------------------------------------------------------------------------ *)
(** * Further properties of the route configuration *)

Lemma row_leb_total (a b : DBConfig.RouteRow) :
  DBConfig.row_leb a b = true \/ DBConfig.row_leb b a = true.
Proof.
  unfold DBConfig.row_leb.
  rewrite (String.compare_antisym (DBConfig.row_departure a)
             (DBConfig.row_departure b)).
  destruct (String.compare (DBConfig.row_departure b)
              (DBConfig.row_departure a)); simpl; auto.
  rewrite (String.compare_antisym (DBConfig.row_destination a)
             (DBConfig.row_destination b)).
  destruct (String.compare (DBConfig.row_destination b)
              (DBConfig.row_destination a)); simpl; auto.
  apply String.leb_total.
Qed.

Lemma insert_row_perm (x : DBConfig.RouteRow) (l : list DBConfig.RouteRow) :
  Permutation (DBConfig.insert_row x l) (x :: l).
Proof.
  induction l as [| y l IH]; simpl; [reflexivity |].
  destruct (DBConfig.row_leb x y); [reflexivity |].
  rewrite IH. apply perm_swap.
Qed.

Lemma insert_row_sorted (x : DBConfig.RouteRow) (l : list DBConfig.RouteRow) :
  Sorted (fun a b => DBConfig.row_leb a b = true) l ->
  Sorted (fun a b => DBConfig.row_leb a b = true) (DBConfig.insert_row x l).
Proof.
  induction l as [| y l IH]; simpl; intros S.
  - repeat constructor.
  - destruct (DBConfig.row_leb x y) eqn:L.
    + constructor; [exact S |]. constructor. exact L.
    + inversion S as [| ? ? S' Hd]; subst.
      constructor; [apply IH; exact S' |].
      destruct l as [| z l]; simpl.
      * constructor. destruct (row_leb_total x y); congruence.
      * destruct (DBConfig.row_leb x z).
        -- constructor. destruct (row_leb_total x y); congruence.
        -- constructor. inversion Hd; subst. assumption.
Qed.

(** X9: with a database loaded, [getRoutes] changes nothing and returns
    the routes joined with their places and vehicle, each joined row once,
    in the order of departure name, destination name and vehicle type. *)
Theorem getRoutes_ordered (st : State) (db : Database) :
  _db st = Some db ->
  exists rows,
    DBConfig.getRoutes st = (st, Ok rows)
    /\ Sorted (fun a b => DBConfig.row_leb a b = true) rows
    /\ Permutation rows
         (DBConfig.joined_routes (fun _ => true) (tables db)).
Proof.
  intros E. eexists. split; [| split].
  - unfold DBConfig.getRoutes. apply query_ready. exact E.
  - unfold DBConfig.order_rows.
    induction (DBConfig.joined_routes (fun _ => true) (tables db))
      as [| x l IH]; simpl; [constructor |].
    apply insert_row_sorted. exact IH.
  - unfold DBConfig.order_rows.
    induction (DBConfig.joined_routes (fun _ => true) (tables db))
      as [| x l IH]; simpl; [reflexivity |].
    rewrite insert_row_perm. constructor. exact IH.
Qed.

Lemma getRoutes_ordered_witness :
  exists rows,
    DBConfig.getRoutes Sample.saved_twice = (Sample.saved_twice, Ok rows)
    /\ Sorted (fun a b => DBConfig.row_leb a b = true) rows
    /\ Permutation rows
         (DBConfig.joined_routes (fun _ => true)
            (tables Sample.saved_twice_db)).
Proof.
  apply (getRoutes_ordered Sample.saved_twice Sample.saved_twice_db).
  vm_compute. reflexivity.
Defined.

Section RouteFrame.

Context `{Schema}.

(** Whatever [run] does, the database stays loaded, and its tables are
    those of before or those the statement makes. *)
Lemma run_tables (sql : Stmt) (st st' : State) (r : Outcome DB.RunResult)
  (db : Database) :
  _db st = Some db ->
  DB.run sql st = (st', r) ->
  exists db',
    _db st' = Some db'
    /\ (tables db' = tables db
        \/ tables db' = fst (fst (apply_stmt (clock (env st)) sql (tables db)))).
Proof.
  intros E Er. pose proof (run_inv _ _ Er) as R. rewrite E in R.
  destruct (db_run (clock (env st)) sql db) as [e | db'] eqn:Ed.
  - destruct R as [-> _]. exists db. auto.
  - destruct R as (E' & _). exists (reopened db'). split; [exact E' |].
    right. apply db_run_ok in Ed. simpl. tauto.
Qed.

(** Whatever [_upsertRoute] does, the routes are as before, or the first
    route of the direction is repriced, or one route of the direction is
    added at the end; the other tables are as before. *)
Lemma upsertRoute_tables (depId destId vehicleId : Z) (pa pn : option Z)
  (st st' : State) (r : Outcome unit) (db : Database) :
  _db st = Some db ->
  DBConfig._upsertRoute depId destId vehicleId pa pn st = (st', r) ->
  exists db' l,
    _db st' = Some db' /\ tables db' = with_routes (tables db) l
    /\ (l = routes (tables db)
        \/ (exists r0,
               DBConfig.find_route depId destId vehicleId (tables db) = Some r0
               /\ l = map (repriced pa pn (route_id r0)) (routes (tables db)))
        \/ (DBConfig.find_route depId destId vehicleId (tables db) = None
            /\ l = (routes (tables db) ++
                      [{| route_id :=
                            next_rowid (map route_id (routes (tables db)));
                          departure_id := depId; destination_id := destId;
                          route_vehicle_id := vehicleId;
                          price_ac := pa; price_no_ac := pn |}])%list)).
Proof.
  intros E Eu. unfold DBConfig._upsertRoute in Eu.
  erewrite bind_ok in Eu by (apply query_ready; exact E).
  unfold DBConfig.sql_route_ids, DBConfig.find_route in *.
  assert (Same : tables db = with_routes (tables db) (routes (tables db)))
    by (destruct (tables db); reflexivity).
  destruct (filter (DBConfig.route_matches depId destId vehicleId)
              (routes (tables db))) as [| r0 rest]; simpl in Eu |- *.
  - apply bind_inv in Eu as [(s & res & Er & Eu) | (e & Er & ->)];
      [inversion Eu; subst |];
      destruct (run_tables _ _ _ _ _ E Er) as (db' & E' & [T | T]);
      exists db'; simpl in T; rewrite T; eauto 10.
  - apply bind_inv in Eu as [(s & res & Er & Eu) | (e & Er & ->)];
      [inversion Eu; subst |];
      destruct (run_tables _ _ _ _ _ E Er) as (db' & E' & [T | T]);
      exists db'; simpl in T; rewrite T; eauto 10.
Qed.

End RouteFrame.

Lemma route_key_repriced (pa pn : option Z) (id_ : Z) (l : list Route) :
  map route_key (map (repriced pa pn id_) l) = map route_key l.
Proof.
  rewrite map_map. apply map_ext. intros r. unfold repriced, route_key.
  destruct (route_id r =? id_); reflexivity.
Qed.

(** X10: whatever the outcome of [saveRoute] on a loaded database (it may
    throw half-way, on a constraint or on the store), the places,
    vehicles, drivers, trips and passengers are untouched and no route is
    removed, renumbered or moved to other places or another vehicle: the
    routes of before are there in the same order, and at most two routes
    are added after them, each between the two places given and with the
    vehicle given. *)
Theorem saveRoute_keeps_the_rest `{Schema}
  (departureId destinationId vehicleId : Z) (priceAc priceNoAc : option Z)
  (st st' : State) (r : Outcome (list DBConfig.RouteRow)) (db : Database) :
  _db st = Some db ->
  DBConfig.saveRoute departureId destinationId vehicleId priceAc priceNoAc st
  = (st', r) ->
  exists db' added,
    _db st' = Some db'
    /\ places (tables db') = places (tables db)
    /\ vehicles (tables db') = vehicles (tables db)
    /\ drivers (tables db') = drivers (tables db)
    /\ trips (tables db') = trips (tables db)
    /\ passengers (tables db') = passengers (tables db)
    /\ map route_key (routes (tables db'))
       = (map route_key (routes (tables db)) ++ map route_key added)%list
    /\ (List.length added <= 2)%nat
    /\ Forall (fun n =>
                 route_vehicle_id n = vehicleId
                 /\ ((departure_id n = departureId
                      /\ destination_id n = destinationId)
                     \/ (departure_id n = destinationId
                         /\ destination_id n = departureId)))
         added.
Proof.
  intros E Es. unfold DBConfig.saveRoute in Es.
  destruct (departureId =? destinationId).
  { inversion Es; subst. exists db, []. rewrite app_nil_r.
    repeat split; auto. }
  assert (Step : forall a b s s' (o : Outcome unit) d,
             _db s = Some d ->
             DBConfig._upsertRoute a b vehicleId priceAc priceNoAc s = (s', o) ->
             exists d' add,
               _db s' = Some d'
               /\ tables d' = with_routes (tables d) (routes (tables d'))
               /\ map route_key (routes (tables d'))
                  = (map route_key (routes (tables d)) ++ map route_key add)%list
               /\ (add = [] \/ exists n, add = [n]
                                        /\ route_vehicle_id n = vehicleId
                                        /\ departure_id n = a
                                        /\ destination_id n = b)).
  { intros a b s s' o d Ed Eu.
    destruct (upsertRoute_tables _ _ _ _ _ _ _ _ _ Ed Eu)
      as (d' & l & Ed' & T & [-> | [(r0 & _ & ->) | (_ & ->)]]).
    - exists d', []. rewrite T. simpl. rewrite app_nil_r. auto.
    - exists d', []. rewrite T. simpl.
      rewrite app_nil_r, route_key_repriced. auto.
    - exists d'. eexists [_]. rewrite T. simpl. rewrite map_app. simpl.
      repeat split; auto. right. eexists. repeat split; reflexivity. }
  apply bind_inv in Es as [(s1 & [] & Eu1 & Es) | (e & Eu1 & ->)].
  2:{ destruct (Step _ _ _ _ _ _ E Eu1) as (d1 & add1 & E1 & T1 & K1 & A1).
      exists d1, add1.
      assert (P1 : places (tables d1) = places (tables db)
                   /\ vehicles (tables d1) = vehicles (tables db)
                   /\ drivers (tables d1) = drivers (tables db)
                   /\ trips (tables d1) = trips (tables db)
                   /\ passengers (tables d1) = passengers (tables db))
        by (rewrite T1; simpl; auto).
      destruct P1 as (? & ? & ? & ? & ?).
      split; [exact E1 |]. repeat (split; [assumption |]). split.
      - destruct A1 as [-> | (n & -> & _)]; simpl; lia.
      - destruct A1 as [-> | (n & -> & ? & ? & ?)]; constructor; auto. }
  destruct (Step _ _ _ _ _ _ E Eu1) as (d1 & add1 & E1 & T1 & K1 & A1).
  erewrite bind_ok in Es by (apply query_ready; exact E1).
  assert (Fin : exists d2 add2,
             _db st' = Some d2
             /\ tables d2 = with_routes (tables d1) (routes (tables d2))
             /\ map route_key (routes (tables d2))
                = (map route_key (routes (tables d1))
                     ++ map route_key add2)%list
             /\ (add2 = [] \/ exists n, add2 = [n]
                                       /\ route_vehicle_id n = vehicleId
                                       /\ departure_id n = destinationId
                                       /\ destination_id n = departureId)).
  { assert (Q : forall s d, _db s = Some d ->
                  fst (DBConfig.getRoutes s) = s).
    { intros s d Ed. unfold DBConfig.getRoutes.
      erewrite query_ready by exact Ed. reflexivity. }
    destruct (DBConfig.sql_route_ids destinationId departureId vehicleId
                (tables d1)) as [| i rest].
    - apply bind_inv in Es as [(s2 & [] & Eu2 & Es) | (e & Eu2 & ->)];
        destruct (Step _ _ _ _ _ _ E1 Eu2) as (d2 & add2 & E2 & T2 & K2 & A2);
        exists d2, add2; repeat split; auto.
      pose proof (Q s2 d2 E2) as Q2. rewrite Es in Q2. simpl in Q2.
      congruence.
    - erewrite bind_ok in Es by reflexivity.
      pose proof (Q s1 d1 E1) as Q1. rewrite Es in Q1. simpl in Q1.
      subst st'. exists d1, []. rewrite app_nil_r.
      repeat split; auto. destruct (tables d1); reflexivity. }
  destruct Fin as (d2 & add2 & E2 & T2 & K2 & A2).
  exists d2, (add1 ++ add2)%list.
  assert (P1 : places (tables d1) = places (tables db)
               /\ vehicles (tables d1) = vehicles (tables db)
               /\ drivers (tables d1) = drivers (tables db)
               /\ trips (tables d1) = trips (tables db)
               /\ passengers (tables d1) = passengers (tables db))
    by (rewrite T1; simpl; auto).
  assert (P2 : places (tables d2) = places (tables d1)
               /\ vehicles (tables d2) = vehicles (tables d1)
               /\ drivers (tables d2) = drivers (tables d1)
               /\ trips (tables d2) = trips (tables d1)
               /\ passengers (tables d2) = passengers (tables d1))
    by (rewrite T2; simpl; auto).
  destruct P1 as (? & ? & ? & ? & ?). destruct P2 as (? & ? & ? & ? & ?).
  split; [exact E2 |]. repeat (split; [congruence |]).
  split; [rewrite K2, K1, map_app, app_assoc; reflexivity |]. split.
  - rewrite length_app.
    destruct A1 as [-> | (n1 & -> & _)], A2 as [-> | (n2 & -> & _)];
      simpl; lia.
  - apply Forall_app. split.
    + destruct A1 as [-> | (n & -> & ? & ? & ?)]; constructor; auto.
    + destruct A2 as [-> | (n & -> & ? & ? & ?)]; constructor; auto.
Qed.

Lemma saveRoute_keeps_the_rest_witness :
  exists db' added,
    _db Sample.saved_once = Some db'
    /\ places (tables db') = places (tables Sample.ready_db)
    /\ vehicles (tables db') = vehicles (tables Sample.ready_db)
    /\ drivers (tables db') = drivers (tables Sample.ready_db)
    /\ trips (tables db') = trips (tables Sample.ready_db)
    /\ passengers (tables db') = passengers (tables Sample.ready_db)
    /\ map route_key (routes (tables db'))
       = (map route_key (routes (tables Sample.ready_db))
            ++ map route_key added)%list
    /\ (List.length added <= 2)%nat
    /\ Forall (fun n =>
                 route_vehicle_id n = 1
                 /\ ((departure_id n = 1 /\ destination_id n = 2)
                     \/ (departure_id n = 2 /\ destination_id n = 1)))
         added.
Proof.
  apply (@saveRoute_keeps_the_rest Sample.no_constraints 1 2 1
           (Some 15000) (Some 12000) Sample.ready Sample.saved_once
           (snd (@DBConfig.saveRoute Sample.no_constraints 1 2 1
                   (Some 15000) (Some 12000) Sample.ready))
           Sample.ready_db).
  - vm_compute. reflexivity.
  - apply surjective_pairing.
Defined.

(** X11: a [saveRoute] that returns leaves, for each of the two
    directions, as many routes as there were, and one if there was none:
    it never adds a second route between the same places with the same
    vehicle. *)
Theorem saveRoute_adds_no_duplicate `{Schema}
  (departureId destinationId vehicleId : Z) (priceAc priceNoAc : option Z)
  (st st' : State) (rows : list DBConfig.RouteRow) (db : Database) :
  _db st = Some db ->
  DBConfig.saveRoute departureId destinationId vehicleId priceAc priceNoAc st
  = (st', Ok rows) ->
  exists db',
    _db st' = Some db'
    /\ List.length
         (filter (DBConfig.route_matches departureId destinationId vehicleId)
            (routes (tables db')))
       = Nat.max 1
           (List.length
              (filter
                 (DBConfig.route_matches departureId destinationId vehicleId)
                 (routes (tables db))))
    /\ List.length
         (filter (DBConfig.route_matches destinationId departureId vehicleId)
            (routes (tables db')))
       = Nat.max 1
           (List.length
              (filter
                 (DBConfig.route_matches destinationId departureId vehicleId)
                 (routes (tables db)))).
Proof.
  intros E Es. unfold DBConfig.saveRoute in Es.
  destruct (Z.eqb_spec departureId destinationId) as [| Hne];
    [discriminate |].
  apply bind_ok_inv in Es as (s1 & [] & Eu1 & Es).
  destruct (upsertRoute_returns _ _ _ _ _ _ E Eu1) as (db1 & E1 & R1).
  erewrite bind_ok in Es by (apply query_ready; exact E1).
  apply bind_ok_inv in Es as (s2 & [] & Eu2 & Es).
  unfold DBConfig.getRoutes in Es. rewrite query_eq in Es.
  assert (st' = s2) by (destruct (_db s2); inversion Es; auto). subst s2.
  clear Es.
  set (fwd := DBConfig.route_matches departureId destinationId vehicleId)
    in *.
  set (rev := DBConfig.route_matches destinationId departureId vehicleId)
    in *.
  assert (Hnew : forall a b pa pn i,
             DBConfig.route_matches a b vehicleId
               {| route_id := i; departure_id := a; destination_id := b;
                  route_vehicle_id := vehicleId;
                  price_ac := pa; price_no_ac := pn |} = true).
  { intros. unfold DBConfig.route_matches. simpl. rewrite !Z.eqb_refl.
    reflexivity. }
  assert (Hother : forall a b pa pn i, a <> b ->
             DBConfig.route_matches b a vehicleId
               {| route_id := i; departure_id := a; destination_id := b;
                  route_vehicle_id := vehicleId;
                  price_ac := pa; price_no_ac := pn |} = false).
  { intros a b pa pn i N. unfold DBConfig.route_matches. simpl.
    destruct (Z.eqb_spec a b); [contradiction | reflexivity]. }
  pose proof (Hnew departureId destinationId) as Hff.
  pose proof (Hother departureId destinationId) as Hrf.
  pose proof (Hnew destinationId departureId) as Hrr.
  pose proof (Hother destinationId departureId) as Hfr.
  fold fwd in Hff, Hfr. fold rev in Hrr, Hrf. clear Hnew Hother.
  assert (L1 : List.length (filter fwd (routes (tables db1)))
               = Nat.max 1 (List.length (filter fwd (routes (tables db))))
               /\ List.length (filter rev (routes (tables db1)))
                  = List.length (filter rev (routes (tables db)))).
  { rewrite R1. unfold DBConfig.find_route. fold fwd.
    destruct (filter fwd (routes (tables db))) as [| r0 rest] eqn:Ef; simpl.
    - rewrite !filter_app. simpl.
      rewrite Hff, Hrf by assumption. fold fwd.
      rewrite Ef, app_nil_r. split; reflexivity.
    - rewrite !filter_map_stable by (intros; apply repriced_matches).
      rewrite !length_map, Ef. simpl. split; [lia | reflexivity]. }
  destruct L1 as [Lf Lr].
  unfold DBConfig.sql_route_ids in Eu2. fold rev in Eu2.
  destruct (filter rev (routes (tables db1))) as [| r1 rest1] eqn:Er1;
    simpl in Eu2.
  - destruct (upsertRoute_returns _ _ _ _ _ _ E1 Eu2) as (db2 & E2 & R2).
    unfold DBConfig.find_route in R2. fold rev in R2.
    rewrite Er1 in R2. simpl in R2.
    exists db2. rewrite R2, !filter_app. cbn [filter].
    rewrite Hrr, Hfr by auto. rewrite app_nil_r, ?Er1.
    split; [exact E2 |]. split; [exact Lf |].
    rewrite <- Lr. reflexivity.
  - inversion Eu2; subst. exists db1. rewrite ?Er1.
    split; [exact E1 |]. split; [exact Lf |].
    rewrite <- Lr. reflexivity.
Qed.

Lemma saveRoute_adds_no_duplicate_witness :
  exists db',
    _db Sample.saved_twice = Some db'
    /\ List.length
         (filter (DBConfig.route_matches 1 2 1) (routes (tables db')))
       = Nat.max 1
           (List.length
              (filter (DBConfig.route_matches 1 2 1)
                 (routes (tables Sample.saved_once_db))))
    /\ List.length
         (filter (DBConfig.route_matches 2 1 1) (routes (tables db')))
       = Nat.max 1
           (List.length
              (filter (DBConfig.route_matches 2 1 1)
                 (routes (tables Sample.saved_once_db)))).
Proof.
  apply (@saveRoute_adds_no_duplicate Sample.no_constraints 1 2 1
           (Some 20000) (Some 18000) Sample.saved_once Sample.saved_twice
           Sample.listed_twice Sample.saved_once_db);
    vm_compute; reflexivity.
Defined.

(* ------------------------------------------------------------------------ *)
(** * Further properties of the booking module *)

Lemma filter_phone_renamed (name vehicleNo_ phone : string) (id_ : Z)
  (l : list Driver) :
  filter (fun d => String.eqb (driver_phone d) phone)
    (map (renamed name vehicleNo_ id_) l)
  = map (renamed name vehicleNo_ id_)
      (filter (fun d => String.eqb (driver_phone d) phone) l).
Proof.
  apply filter_map_stable. intros d. unfold renamed.
  destruct (driver_id d =? id_); reflexivity.
Qed.

(** X12: after an [upsertDriver] that returns, [getDriverByPhone] of that
    phone finds a driver under the name and with the vehicle plate given.
    When the phone had a driver, it is that driver, and its id is what
    [upsertDriver] returns.  When it had none, the driver is a new row with
    a new id, and [upsertDriver] returns 0, the [lastInsertRowid] that
    [run] reads once [persist] has exported the image.  There are as many
    drivers with that phone as before, or one if there was none. *)
Theorem upsertDriver_then_lookup `{Schema} (name phone vehicleNo_ : string)
  (st st' : State) (did : Z) (db : Database) :
  _db st = Some db ->
  DBBooking.upsertDriver name phone vehicleNo_ st = (st', Ok did) ->
  exists d db',
    DBBooking.getDriverByPhone phone st' = (st', Ok (Some d))
    /\ driver_name d = name /\ driver_phone d = phone
    /\ driver_vehicle_no d = vehicleNo_
    /\ match hd_error (DBBooking.sql_drivers_by_phone phone (tables db)) with
       | Some old => driver_id d = driver_id old /\ did = driver_id old
       | None =>
           driver_id d = next_rowid (map driver_id (drivers (tables db)))
           /\ did = 0
       end
    /\ _db st' = Some db'
    /\ List.length (DBBooking.sql_drivers_by_phone phone (tables db'))
       = Nat.max 1
           (List.length (DBBooking.sql_drivers_by_phone phone (tables db))).
Proof.
  intros E Eu. unfold DBBooking.upsertDriver in Eu.
  apply bind_ok_inv in Eu as (s & existing & Eg & Eu).
  unfold DBBooking.getDriverByPhone in Eg.
  erewrite bind_ok in Eg by (apply query_ready; exact E).
  inversion Eg; subst s existing. clear Eg.
  unfold DBBooking.getDriverByPhone, DBBooking.sql_drivers_by_phone in *.
  destruct (filter (fun d => String.eqb (driver_phone d) phone)
              (drivers (tables db))) as [| d rest] eqn:Ef; simpl in Eu.
  - apply bind_ok_inv in Eu as (s & res & Er & Eu). inversion Eu; subst.
    destruct (run_returns _ _ E Er) as (db1 & Edb & E1 & _ & ->).
    apply db_run_ok in Edb as (_ & T & _). simpl in T.
    eexists _, (reopened db1).
    erewrite bind_ok by (apply query_ready; exact E1).
    simpl. rewrite T. simpl. rewrite filter_app, Ef. simpl.
    rewrite String.eqb_refl. simpl. repeat split; try reflexivity; auto.
  - apply bind_ok_inv in Eu as (s & res & Er & Eu). inversion Eu; subst.
    destruct (run_returns _ _ E Er) as (db1 & Edb & E1 & _).
    apply db_run_ok in Edb as (_ & T & _). simpl in T.
    assert (Hd : In d (filter (fun d => String.eqb (driver_phone d) phone)
                         (drivers (tables db))))
      by (rewrite Ef; left; reflexivity).
    apply filter_In in Hd as [_ Hp]. apply String.eqb_eq in Hp.
    eexists _, (reopened db1).
    erewrite bind_ok by (apply query_ready; exact E1).
    simpl. rewrite T. simpl. rewrite filter_phone_renamed, Ef. simpl.
    unfold renamed at 1. rewrite Z.eqb_refl. rewrite length_map.
    repeat split; try reflexivity; auto.
Qed.

Lemma upsertDriver_then_lookup_witness :
  exists d db',
    DBBooking.getDriverByPhone "08030000000" Sample.first_driver
    = (Sample.first_driver, Ok (Some d))
    /\ driver_name d = "Musa" /\ driver_phone d = "08030000000"
    /\ driver_vehicle_no d = "LAG-123-XY"
    /\ match hd_error (DBBooking.sql_drivers_by_phone "08030000000"
                         (tables Sample.ready_db)) with
       | Some old => driver_id d = driver_id old /\ 0 = driver_id old
       | None =>
           driver_id d
           = next_rowid (map driver_id (drivers (tables Sample.ready_db)))
           /\ 0 = 0
       end
    /\ _db Sample.first_driver = Some db'
    /\ List.length (DBBooking.sql_drivers_by_phone "08030000000" (tables db'))
       = Nat.max 1
           (List.length
              (DBBooking.sql_drivers_by_phone "08030000000"
                 (tables Sample.ready_db))).
Proof.
  apply (@upsertDriver_then_lookup Sample.no_constraints "Musa"
           "08030000000" "LAG-123-XY" Sample.ready Sample.first_driver 0
           Sample.ready_db);
    vm_compute; reflexivity.
Defined.

Lemma filter_none {A} (p : A -> bool) (l : list A) :
  (forall x, In x l -> p x = false) -> filter p l = [].
Proof.
  induction l as [| a l IH]; simpl; intros Hp; [reflexivity |].
  rewrite (Hp a) by auto. apply IH. auto.
Qed.

Lemma filter_all {A} (p : A -> bool) (l : list A) :
  (forall x, In x l -> p x = true) -> filter p l = l.
Proof.
  induction l as [| a l IH]; simpl; intros Hp; [reflexivity |].
  rewrite (Hp a) by auto. f_equal. apply IH. auto.
Qed.

(** Under a key without duplicates, the rows of a key are one row. *)
Lemma filter_key {A} (f : A -> Z) (l : list A) (x : A) :
  NoDup (map f l) -> In x l -> filter (fun y => f x =? f y) l = [x].
Proof.
  induction l as [| a l IH]; simpl; [easy |].
  intros Hn Hx. inversion Hn as [| ? ? Ha Hl]; subst.
  destruct Hx as [-> | Hx].
  - rewrite Z.eqb_refl. f_equal. apply filter_none. intros y Hy.
    apply Z.eqb_neq. intros Ee. apply Ha. rewrite Ee. now apply in_map.
  - destruct (Z.eqb_spec (f x) (f a)) as [Ee |]; [| now apply IH].
    exfalso. apply Ha. rewrite <- Ee. now apply in_map.
Qed.

(** Deleting by a key without duplicates takes out one row. *)
Lemma delete_by_key {A} (f : A -> Z) (l : list A) (p : A) :
  NoDup (map f l) -> In p l ->
  exists l1 l2,
    l = (l1 ++ p :: l2)%list
    /\ filter (fun q => negb (f q =? f p)) l = (l1 ++ l2)%list.
Proof.
  intros Hn Hp. destruct (in_split _ _ Hp) as (l1 & l2 & ->).
  exists l1, l2. split; [reflexivity |].
  rewrite map_app in Hn. simpl in Hn. apply NoDup_remove_2 in Hn.
  rewrite filter_app. simpl. rewrite Z.eqb_refl. simpl.
  rewrite !filter_all; [reflexivity | |];
    intros q Hq; apply negb_true_iff, Z.eqb_neq; intros Ee; apply Hn;
    rewrite <- Ee; apply in_or_app; [right | left]; now apply in_map.
Qed.

Lemma filter_swap {A} (p q : A -> bool) (l : list A) :
  filter p (filter q l) = filter q (filter p l).
Proof.
  induction l as [| a l IH]; simpl; [reflexivity |].
  destruct (p a) eqn:Ep, (q a) eqn:Eq; simpl; rewrite ?Ep, ?Eq, IH;
    reflexivity.
Qed.

(** X13: with a database loaded whose trip, route and vehicle ids are
    without duplicates, [getSeatsRemaining] of a trip whose route and
    vehicle exist is the capacity of that vehicle minus the number of
    passengers [getPassengersByTrip] lists for the trip; and for an id that
    no trip has, it is [null]. *)
Theorem getSeatsRemaining_counts (st : State) (db : Database)
  (x : Trip) (r : Route) (v : Vehicle) :
  _db st = Some db ->
  NoDup (map trip_id (trips (tables db))) ->
  NoDup (map route_id (routes (tables db))) ->
  NoDup (map vehicle_id (vehicles (tables db))) ->
  In x (trips (tables db)) ->
  In r (routes (tables db)) -> trip_route_id x = route_id r ->
  In v (vehicles (tables db)) -> route_vehicle_id r = vehicle_id v ->
  (exists ps,
      DBBooking.getPassengersByTrip (trip_id x) st = (st, Ok ps)
      /\ DBBooking.getSeatsRemaining (trip_id x) st
         = (st, Ok (Some (capacity v - Z.of_nat (List.length ps)))))
  /\ (forall tripId,
        ~ In tripId (map trip_id (trips (tables db))) ->
        DBBooking.getSeatsRemaining tripId st = (st, Ok None)).
Proof.
  intros E Nt Nr Nv Hx Hr Exr Hv Erv. split.
  - eexists. split.
    + unfold DBBooking.getPassengersByTrip. apply query_ready. exact E.
    + unfold DBBooking.getSeatsRemaining.
      erewrite bind_ok by (apply query_ready; exact E).
      unfold ret. do 3 f_equal.
      unfold DBBooking.sql_seats_remaining, DBBooking.seat_groups.
      rewrite (filter_ext (fun y => trip_id y =? trip_id x)
                 (fun y => trip_id x =? trip_id y))
        by (intros; apply Z.eqb_sym).
      rewrite (filter_key trip_id _ _ Nt Hx). simpl.
      rewrite Exr, (filter_key route_id _ _ Nr Hr). simpl.
      rewrite Erv, (filter_key vehicle_id _ _ Nv Hv). simpl.
      rewrite Z.eqb_refl. simpl. unfold passenger_count, count.
      unfold DBBooking.sql_passengers_by_trip. f_equal. lia.
  - intros tripId Hn. unfold DBBooking.getSeatsRemaining.
    erewrite bind_ok by (apply query_ready; exact E).
    unfold DBBooking.sql_seats_remaining, DBBooking.seat_groups.
    rewrite filter_none; [reflexivity |].
    intros y Hy. apply Z.eqb_neq. intros Ee. apply Hn. rewrite <- Ee.
    now apply in_map.
Qed.

Lemma getSeatsRemaining_counts_witness :
  (exists ps,
      DBBooking.getPassengersByTrip (trip_id Sample.trip_aaaa) Sample.booked
      = (Sample.booked, Ok ps)
      /\ DBBooking.getSeatsRemaining (trip_id Sample.trip_aaaa) Sample.booked
         = (Sample.booked,
            Ok (Some (capacity Sample.sienna - Z.of_nat (List.length ps)))))
  /\ (forall tripId,
        ~ In tripId (map trip_id (trips (tables Sample.booked_db))) ->
        DBBooking.getSeatsRemaining tripId Sample.booked
        = (Sample.booked, Ok None)).
Proof.
  apply (getSeatsRemaining_counts Sample.booked Sample.booked_db
           Sample.trip_aaaa Sample.lagos_abuja Sample.sienna);
    vm_compute;
    first [reflexivity | solve [auto]
          | solve [repeat constructor; simpl; intuition discriminate]].
Defined.

(** X14: [removePassenger], when it returns, takes the passenger of that id
    off every passenger list and touches nothing else; with passenger ids
    without duplicates and the passenger there, the list of the passenger's
    trip is one shorter and the lists of the other trips are as they
    were. *)
Theorem removePassenger_removes `{Schema} (st st' : State) (db : Database)
  (p : Passenger) :
  _db st = Some db ->
  NoDup (map passenger_id (passengers (tables db))) ->
  In p (passengers (tables db)) ->
  DBBooking.removePassenger (passenger_id p) st = (st', Ok tt) ->
  exists db',
    _db st' = Some db'
    /\ (forall tripId,
          DBBooking.getPassengersByTrip tripId st'
          = (st', Ok (filter (fun q => negb (passenger_id q =? passenger_id p))
                        (DBBooking.sql_passengers_by_trip tripId (tables db)))))
    /\ ~ In p (passengers (tables db'))
    /\ (List.length (DBBooking.sql_passengers_by_trip (passenger_trip_id p)
                       (tables db')) + 1
        = List.length (DBBooking.sql_passengers_by_trip (passenger_trip_id p)
                         (tables db)))%nat
    /\ (forall tripId,
          tripId <> passenger_trip_id p ->
          DBBooking.sql_passengers_by_trip tripId (tables db')
          = DBBooking.sql_passengers_by_trip tripId (tables db))
    /\ trips (tables db') = trips (tables db)
    /\ drivers (tables db') = drivers (tables db)
    /\ routes (tables db') = routes (tables db).
Proof.
  intros E Hn Hp Er. unfold DBBooking.removePassenger in Er.
  apply bind_ok_inv in Er as (s & res & Er & Eret). inversion Eret; subst s.
  destruct (run_returns _ _ E Er) as (db' & Edb & E' & _).
  apply db_run_ok in Edb as (_ & T & _). simpl in T.
  exists (reopened db'). split; [exact E' |].
  unfold DBBooking.getPassengersByTrip, DBBooking.sql_passengers_by_trip.
  cbn [reopened tables]. rewrite T. simpl.
  destruct (delete_by_key passenger_id _ _ Hn Hp) as (l1 & l2 & El & Ef).
  split; [| split; [| split; [| split]]]; auto.
  - intros tripId. erewrite query_ready by exact E'.
    cbn [reopened tables]. rewrite T. simpl.
    rewrite filter_swap. reflexivity.
  - intros Hin. apply filter_In in Hin as [_ Hin].
    rewrite Z.eqb_refl in Hin. discriminate.
  - rewrite Ef, El, !filter_app, !length_app. simpl.
    rewrite Z.eqb_refl. simpl. lia.
  - intros tripId Hne. rewrite Ef, El, !filter_app. simpl.
    destruct (Z.eqb_spec (passenger_trip_id p) tripId); [congruence |].
    reflexivity.
Qed.

Lemma removePassenger_removes_witness :
  exists db',
    _db Sample.removed = Some db'
    /\ (forall tripId,
          DBBooking.getPassengersByTrip tripId Sample.removed
          = (Sample.removed,
             Ok (filter (fun q => negb (passenger_id q =? passenger_id Sample.ada))
                   (DBBooking.sql_passengers_by_trip tripId
                      (tables Sample.full_db)))))
    /\ ~ In Sample.ada (passengers (tables db'))
    /\ (List.length (DBBooking.sql_passengers_by_trip
                       (passenger_trip_id Sample.ada) (tables db')) + 1
        = List.length (DBBooking.sql_passengers_by_trip
                         (passenger_trip_id Sample.ada)
                         (tables Sample.full_db)))%nat
    /\ (forall tripId,
          tripId <> passenger_trip_id Sample.ada ->
          DBBooking.sql_passengers_by_trip tripId (tables db')
          = DBBooking.sql_passengers_by_trip tripId (tables Sample.full_db))
    /\ trips (tables db') = trips (tables Sample.full_db)
    /\ drivers (tables db') = drivers (tables Sample.full_db)
    /\ routes (tables db') = routes (tables Sample.full_db).
Proof.
  apply (@removePassenger_removes Sample.no_constraints Sample.full
           Sample.removed Sample.full_db Sample.ada);
    vm_compute;
    first [reflexivity | solve [auto]
          | solve [repeat constructor; simpl; intuition discriminate]].
Defined.

(** X15: when [bookPassenger] throws, the error is not the capacity
    trigger's (its message does not include [fully booked]), and either
    nothing has changed, or the error is the store's: the passenger, with
    name and phone trimmed, is then the last row of the passengers in
    memory, IndexedDB holds what it held and [_dirty] is set. *)
Theorem bookPassenger_throws `{Schema} (tripId : Z)
  (name phone gender_ : string) (st st' : State) (e : JsError) :
  DBBooking.bookPassenger tripId name phone gender_ st = (st', Throw e) ->
  Js.includes (message e) "fully booked" = false
  /\ (st' = st
      \/ exists db db' msg,
           _db st = Some db /\ _db st' = Some db'
           /\ e = DOMException msg
           /\ passengers (tables db')
              = (passengers (tables db) ++
                   [{| passenger_id :=
                         next_rowid (map passenger_id (passengers (tables db)));
                       passenger_trip_id := tripId;
                       passenger_name := Js.trim name;
                       passenger_phone := Js.trim phone;
                       gender := gender_ |}])%list
           /\ _dirty st' = true
           /\ idb_value (env st') = idb_value (env st)).
Proof.
  intros Eb. unfold DBBooking.bookPassenger, try_catch in Eb.
  destruct (DB.run (InsertPassenger tripId (Js.trim name) (Js.trim phone)
                      gender_) st) as [s [res | e0]] eqn:Er.
  - erewrite bind_ok in Eb by exact Er. discriminate.
  - erewrite bind_throw in Eb by exact Er.
    destruct (Js.includes (message e0) "fully booked") eqn:I;
      [discriminate |].
    unfold throw in Eb. inversion Eb; subst s e0. clear Eb.
    split; [exact I |].
    pose proof (run_inv _ _ Er) as R.
    destruct (_db st) as [db |] eqn:E; [| left; tauto].
    destruct (db_run (clock (env st))
                (InsertPassenger tripId (Js.trim name) (Js.trim phone) gender_)
                db) as [e' | db'] eqn:Ed; [left; tauto |].
    destruct R as (E' & _ & _ & [(? & _) | (msg & Ee & D & V & _)]);
      [discriminate |].
    inversion Ee; subst e. right. exists db, (reopened db'), msg.
    apply db_run_ok in Ed as (_ & T & _). cbn [reopened tables].
    rewrite T. simpl. auto 10.
Qed.

Lemma bookPassenger_throws_witness :
  Js.includes (message (DOMException "QuotaExceededError")) "fully booked"
  = false
  /\ (fst (@DBBooking.bookPassenger Sample.no_constraints 1 " Chi " "0803 "
             "M" Sample.quota_exceeded)
      = Sample.quota_exceeded
      \/ exists db db' msg,
           _db Sample.quota_exceeded = Some db
           /\ _db (fst (@DBBooking.bookPassenger Sample.no_constraints 1
                          " Chi " "0803 " "M" Sample.quota_exceeded))
              = Some db'
           /\ DOMException "QuotaExceededError" = DOMException msg
           /\ passengers (tables db')
              = (passengers (tables db) ++
                   [{| passenger_id :=
                         next_rowid (map passenger_id (passengers (tables db)));
                       passenger_trip_id := 1;
                       passenger_name := Js.trim " Chi ";
                       passenger_phone := Js.trim "0803 ";
                       gender := "M" |}])%list
           /\ _dirty (fst (@DBBooking.bookPassenger Sample.no_constraints 1
                             " Chi " "0803 " "M" Sample.quota_exceeded))
              = true
           /\ idb_value
                (env (fst (@DBBooking.bookPassenger Sample.no_constraints 1
                             " Chi " "0803 " "M" Sample.quota_exceeded)))
              = idb_value (env Sample.quota_exceeded)).
Proof.
  apply (@bookPassenger_throws Sample.no_constraints 1 " Chi " "0803 " "M"
           Sample.quota_exceeded
           (fst (@DBBooking.bookPassenger Sample.no_constraints 1 " Chi "
                   "0803 " "M" Sample.quota_exceeded))
           (DOMException "QuotaExceededError")).
  vm_compute. reflexivity.
Defined.

(* ------------------------------------------------------------------------ *)
(** * Further properties: from the configuration to the booking form *)

Lemma hd_error_firstn_1 {A} (l : list A) : hd_error (firstn 1 l) = hd_error l.
Proof. destruct l; reflexivity. Qed.

Lemma filter_found {A} (p : A -> bool) (l : list A) (x : A) :
  In x l -> p x = true ->
  exists y rest, filter p l = y :: rest /\ In y l /\ p y = true.
Proof.
  intros Hi Hp. assert (Hf : In x (filter p l)) by (apply filter_In; auto).
  destruct (filter p l) as [| y rest] eqn:E; [destruct Hf |].
  exists y, rest.
  assert (Hy : In y (filter p l)) by (rewrite E; left; reflexivity).
  apply filter_In in Hy. tauto.
Qed.

(** The row [getRouteBySelection] reads is that of the first route of the
    direction, when its vehicle and its two places are there. *)
Lemma selection_of_route (a b v : Z) (t : Tables) (f : Route)
  (veh : Vehicle) (dep dest : Place) :
  DBConfig.find_route a b v t = Some f ->
  In veh (vehicles t) -> vehicle_id veh = v ->
  In dep (places t) -> place_id dep = a ->
  In dest (places t) -> place_id dest = b ->
  exists row,
    hd_error (DBBooking.sql_route_by_selection a b v t) = Some row
    /\ DBBooking.sel_id row = route_id f
    /\ DBBooking.sel_price_ac row = price_ac f
    /\ DBBooking.sel_price_no_ac row = price_no_ac f.
Proof.
  intros Ef Hv Ev Hd Ed He Ee.
  unfold DBConfig.find_route in Ef.
  unfold DBBooking.sql_route_by_selection. rewrite hd_error_firstn_1.
  change (fun r : Route => (departure_id r =? a) && (destination_id r =? b)
                           && (route_vehicle_id r =? v))
    with (DBConfig.route_matches a b v).
  destruct (filter (DBConfig.route_matches a b v) (routes t))
    as [| f' rest] eqn:Er; [discriminate |].
  simpl in Ef. inversion Ef; subst f'. clear Ef.
  assert (Hf : In f (filter (DBConfig.route_matches a b v) (routes t)))
    by (rewrite Er; left; reflexivity).
  apply filter_In in Hf as [_ Hm]. unfold DBConfig.route_matches in Hm.
  apply andb_true_iff in Hm as [Hm Hm3].
  apply andb_true_iff in Hm as [Hm1 Hm2].
  apply Z.eqb_eq in Hm1, Hm2, Hm3.
  destruct (filter_found (fun v0 => route_vehicle_id f =? vehicle_id v0)
              _ _ Hv) as (v1 & restv & Fv & _);
    [apply Z.eqb_eq; congruence |].
  destruct (filter_found (fun p => departure_id f =? place_id p) _ _ Hd)
    as (d1 & restd & Fd & _); [apply Z.eqb_eq; congruence |].
  destruct (filter_found (fun p => destination_id f =? place_id p) _ _ He)
    as (e1 & reste & Fe & _); [apply Z.eqb_eq; congruence |].
  cbn [flat_map]. rewrite Fv. cbn [flat_map]. rewrite Fd. cbn [flat_map].
  rewrite Fe. simpl. eexists. split; [reflexivity |]. simpl. auto.
Qed.

Section RouteSelection.

Context `{Schema}.

(** After a [saveRoute] that returns, both directions have a route, the
    forward one at the fares given; places and vehicles are as before. *)
Lemma saveRoute_saved (a b v : Z) (pa pn : option Z) (st st' : State)
  (rows : list DBConfig.RouteRow) (db : Database) :
  _db st = Some db ->
  DBConfig.saveRoute a b v pa pn st = (st', Ok rows) ->
  exists db' f r,
    _db st' = Some db'
    /\ places (tables db') = places (tables db)
    /\ vehicles (tables db') = vehicles (tables db)
    /\ DBConfig.find_route a b v (tables db') = Some f
    /\ price_ac f = pa /\ price_no_ac f = pn
    /\ DBConfig.find_route b a v (tables db') = Some r.
Proof.
  intros E Es. unfold DBConfig.saveRoute in Es.
  destruct (Z.eqb_spec a b) as [| Hne]; [discriminate |].
  apply bind_ok_inv in Es as (s1 & [] & Eu1 & Es).
  destruct (upsertRoute_returns _ _ _ _ _ _ E Eu1) as (db1 & E1 & R1).
  destruct (upsertRoute_tables _ _ _ _ _ _ _ _ _ E Eu1)
    as (db1' & l1 & E1' & T1 & _).
  rewrite E1 in E1'. inversion E1'; subst db1'. clear E1'.
  erewrite bind_ok in Es by (apply query_ready; exact E1).
  apply bind_ok_inv in Es as (s2 & [] & Eu2 & Es).
  unfold DBConfig.getRoutes in Es. rewrite query_eq in Es.
  assert (st' = s2) by (destruct (_db s2); inversion Es; auto). subst s2.
  clear Es.
  assert (P1 : places (tables db1) = places (tables db)
               /\ vehicles (tables db1) = vehicles (tables db))
    by (rewrite T1; auto).
  assert (F1 : exists f1,
             hd_error (filter (DBConfig.route_matches a b v)
                         (routes (tables db1))) = Some f1
             /\ price_ac f1 = pa /\ price_no_ac f1 = pn).
  { rewrite R1. unfold DBConfig.find_route.
    destruct (filter (DBConfig.route_matches a b v) (routes (tables db)))
      as [| r0 rest] eqn:Ef; simpl.
    - rewrite filter_app, Ef. simpl.
      unfold DBConfig.route_matches at 1. simpl.
      rewrite !Z.eqb_refl. simpl. eauto.
    - rewrite filter_map_stable by (intros; apply repriced_matches).
      rewrite Ef. simpl. unfold repriced. rewrite Z.eqb_refl. simpl. eauto. }
  destruct F1 as (f1 & Ef1 & Pa & Pn).
  unfold DBConfig.sql_route_ids in Eu2.
  destruct (filter (DBConfig.route_matches b a v) (routes (tables db1)))
    as [| r1 rest1] eqn:Er1; simpl in Eu2.
  - destruct (upsertRoute_returns _ _ _ _ _ _ E1 Eu2) as (db2 & E2 & R2).
    destruct (upsertRoute_tables _ _ _ _ _ _ _ _ _ E1 Eu2)
      as (db2' & l2 & E2' & T2 & _).
    rewrite E2 in E2'. inversion E2'; subst db2'. clear E2'.
    unfold DBConfig.find_route in R2. rewrite Er1 in R2. simpl in R2.
    exists db2, f1. eexists. unfold DBConfig.find_route.
    rewrite R2, !filter_app, Er1. simpl.
    destruct (filter (DBConfig.route_matches a b v) (routes (tables db1)))
      as [| f1' rest] eqn:Ef; [discriminate |].
    simpl in Ef1. inversion Ef1; subst f1'. simpl.
    unfold DBConfig.route_matches. simpl. rewrite !Z.eqb_refl. simpl.
    destruct P1 as [P1 P2].
    repeat split; auto; rewrite T2; simpl; assumption.
  - inversion Eu2; subst. exists db1, f1, r1. unfold DBConfig.find_route.
    rewrite Er1. simpl. tauto.
Qed.

End RouteSelection.

(** X16: a route saved on the configuration page can be picked on the
    booking form: with the vehicle and the two places there, after a
    [saveRoute] that returns, [getRouteBySelection] finds a route for the
    direction saved, at the fares given, and finds one for the opposite
    direction. *)
Theorem saved_route_is_selectable `{Schema} (dep dest : Place) (veh : Vehicle)
  (priceAc priceNoAc : option Z) (st st' : State)
  (rows : list DBConfig.RouteRow) (db : Database) :
  _db st = Some db ->
  In dep (places (tables db)) -> In dest (places (tables db)) ->
  In veh (vehicles (tables db)) ->
  DBConfig.saveRoute (place_id dep) (place_id dest) (vehicle_id veh)
    priceAc priceNoAc st = (st', Ok rows) ->
  exists forward reverse,
    DBBooking.getRouteBySelection (place_id dep) (place_id dest)
      (vehicle_id veh) st' = (st', Ok (Some forward))
    /\ DBBooking.sel_price_ac forward = priceAc
    /\ DBBooking.sel_price_no_ac forward = priceNoAc
    /\ DBBooking.getRouteBySelection (place_id dest) (place_id dep)
         (vehicle_id veh) st' = (st', Ok (Some reverse)).
Proof.
  intros E Hd He Hv Es.
  destruct (saveRoute_saved _ _ _ _ _ _ _ _ _ E Es)
    as (db' & f & r & E' & P & V & Ff & Pa & Pn & Fr).
  rewrite <- P in Hd, He. rewrite <- V in Hv.
  destruct (selection_of_route _ _ _ _ _ veh dep dest Ff Hv eq_refl
              Hd eq_refl He eq_refl) as (row & Hrow & _ & Ra & Rn).
  destruct (selection_of_route _ _ _ _ _ veh dest dep Fr Hv eq_refl
              He eq_refl Hd eq_refl) as (row' & Hrow' & _).
  exists row, row'. unfold DBBooking.getRouteBySelection.
  erewrite !bind_ok by (apply query_ready; exact E').
  unfold ret. rewrite Hrow, Hrow'. repeat split; congruence.
Qed.

Lemma saved_route_is_selectable_witness :
  exists forward reverse,
    DBBooking.getRouteBySelection (place_id Sample.lagos)
      (place_id Sample.abuja) (vehicle_id Sample.sienna) Sample.saved_twice
    = (Sample.saved_twice, Ok (Some forward))
    /\ DBBooking.sel_price_ac forward = Some 20000
    /\ DBBooking.sel_price_no_ac forward = Some 18000
    /\ DBBooking.getRouteBySelection (place_id Sample.abuja)
         (place_id Sample.lagos) (vehicle_id Sample.sienna) Sample.saved_twice
       = (Sample.saved_twice, Ok (Some reverse)).
Proof.
  apply (@saved_route_is_selectable Sample.no_constraints Sample.lagos
           Sample.abuja Sample.sienna (Some 20000) (Some 18000)
           Sample.saved_once Sample.saved_twice Sample.listed_twice
           Sample.saved_once_db);
    vm_compute; first [reflexivity | solve [auto]].
Defined.

(* ------------------------------------------------------------------------ *)
(** * Further properties: what a booking leaves alone *)

Lemma grown_refl (t : Tables) : grown 0 0 0 t t.
Proof.
  unfold grown. repeat split; auto; exists []; rewrite app_nil_r; auto.
Qed.

Lemma grown_weaken (a b c a' b' c' : nat) (t t' : Tables) :
  (a <= a')%nat -> (b <= b')%nat -> (c <= c')%nat ->
  grown a b c t t' -> grown a' b' c' t t'.
Proof.
  intros La Lb Lc (P & V & R & (nd & Dk & Ld) & (nt & Tk & Lt) & (np & Pk & Lp)).
  unfold grown. repeat split; auto;
    [exists nd | exists nt | exists np]; split; auto; lia.
Qed.

Lemma grown_trans (a b c a' b' c' : nat) (t t' t'' : Tables) :
  grown a b c t t' -> grown a' b' c' t' t'' ->
  grown (a + a') (b + b') (c + c') t t''.
Proof.
  intros (P & V & R & (nd & Dk & Ld) & (nt & Tk & Lt) & (np & Pk & Lp))
         (P' & V' & R' & (nd' & Dk' & Ld') & (nt' & Tk' & Lt')
          & (np' & Pk' & Lp')).
  unfold grown. repeat split; try congruence.
  - exists (nd ++ nd')%list.
    rewrite Dk', Dk, map_app, app_assoc, length_app. split; [reflexivity | lia].
  - exists (nt ++ nt')%list.
    rewrite Tk', Tk, app_assoc, length_app. split; [reflexivity | lia].
  - exists (np ++ np')%list.
    rewrite Pk', Pk, app_assoc, length_app. split; [reflexivity | lia].
Qed.

Lemma driver_key_renamed (name vehicleNo_ : string) (id_ : Z)
  (l : list Driver) :
  map driver_key (map (renamed name vehicleNo_ id_) l) = map driver_key l.
Proof.
  rewrite map_map. apply map_ext. intros d. unfold renamed, driver_key.
  destruct (driver_id d =? id_); reflexivity.
Qed.

(** What the statements of a booking do to the tables. *)
Lemma booking_stmt_grown (now : string) (sql : Stmt) (t : Tables) :
  match sql with
  | UpdateDriver _ _ _ | InsertDriver _ _ _ =>
      grown 1 0 0 t (fst (fst (apply_stmt now sql t)))
  | InsertTrip _ _ _ _ _ => grown 0 1 0 t (fst (fst (apply_stmt now sql t)))
  | InsertPassenger _ _ _ _ =>
      grown 0 0 1 t (fst (fst (apply_stmt now sql t)))
  | _ => True
  end.
Proof.
  destruct sql; try exact I; unfold grown; simpl; repeat split;
    try (exists []; rewrite ?app_nil_r, ?driver_key_renamed; split;
         [reflexivity | simpl; lia]);
    try (eexists [_]; rewrite ?map_app; split; [reflexivity | simpl; lia]).
Qed.

Section BookingFrame.

Context `{Schema}.

Lemma run_grown (a b c : nat) (sql : Stmt) (st st' : State)
  (r : Outcome DB.RunResult) (db : Database) :
  (forall now t, grown a b c t (fst (fst (apply_stmt now sql t)))) ->
  _db st = Some db ->
  DB.run sql st = (st', r) ->
  exists db', _db st' = Some db' /\ grown a b c (tables db) (tables db').
Proof.
  intros G E Er.
  destruct (run_tables _ _ _ _ _ E Er) as (db' & E' & [T | T]);
    exists db'; rewrite T; split; auto.
  eapply grown_weaken; [| | | apply grown_refl]; lia.
Qed.

Lemma upsertDriver_grown (name phone vehicleNo_ : string) (st st' : State)
  (r : Outcome Z) (db : Database) :
  _db st = Some db ->
  DBBooking.upsertDriver name phone vehicleNo_ st = (st', r) ->
  exists db', _db st' = Some db' /\ grown 1 0 0 (tables db) (tables db').
Proof.
  intros E Eu. unfold DBBooking.upsertDriver, DBBooking.getDriverByPhone in Eu.
  unfold bind at 1 in Eu. erewrite bind_ok in Eu by (apply query_ready; exact E).
  unfold ret at 1 in Eu.
  destruct (hd_error (DBBooking.sql_drivers_by_phone phone (tables db)))
    as [d |];
    apply bind_inv in Eu as [(s & res & Er & Eu) | (e & Er & _)];
    try (unfold ret in Eu; inversion Eu; subst s);
    (eapply run_grown; [| exact E | exact Er]);
    intros now t;
    [ apply (booking_stmt_grown now (UpdateDriver name vehicleNo_ (driver_id d)))
    | apply (booking_stmt_grown now (UpdateDriver name vehicleNo_ (driver_id d)))
    | apply (booking_stmt_grown now (InsertDriver name phone vehicleNo_))
    | apply (booking_stmt_grown now (InsertDriver name phone vehicleNo_)) ].
Qed.

Lemma createTrip_grown (code : string) (routeId_ driverId : Z)
  (vehicleNo_ : string) (hasAc_ : bool) (st st' : State) (r : Outcome Z)
  (db : Database) :
  _db st = Some db ->
  DBBooking.createTrip code routeId_ driverId vehicleNo_ hasAc_ st = (st', r) ->
  exists db', _db st' = Some db' /\ grown 0 1 0 (tables db) (tables db').
Proof.
  intros E Ec. unfold DBBooking.createTrip in Ec.
  apply bind_inv in Ec as [(s & res & Er & Ec) | (e & Er & _)];
    try (unfold ret in Ec; inversion Ec; subst s);
    (eapply run_grown; [| exact E | exact Er]);
    intros now t;
    apply (booking_stmt_grown now
             (InsertTrip code routeId_ driverId vehicleNo_
                (if hasAc_ then 1 else 0))).
Qed.

Lemma bookPassenger_grown (tripId : Z) (name phone gender_ : string)
  (st st' : State) (r : Outcome DBBooking.PassengerBooking) (db : Database) :
  _db st = Some db ->
  DBBooking.bookPassenger tripId name phone gender_ st = (st', r) ->
  exists db', _db st' = Some db' /\ grown 0 0 1 (tables db) (tables db').
Proof.
  intros E Eb. unfold DBBooking.bookPassenger, try_catch in Eb.
  destruct (DB.run (InsertPassenger tripId (Js.trim name) (Js.trim phone)
                      gender_) st) as [s [res | e]] eqn:Er.
  - erewrite bind_ok in Eb by exact Er. unfold ret in Eb.
    inversion Eb; subst s.
    eapply run_grown; [| exact E | exact Er]. intros now t.
    apply (booking_stmt_grown now
             (InsertPassenger tripId (Js.trim name) (Js.trim phone) gender_)).
  - erewrite bind_throw in Eb by exact Er.
    assert (st' = s)
      by (destruct (Js.includes (message e) "fully booked");
          unfold ret, throw in Eb; inversion Eb; reflexivity).
    subst s.
    eapply run_grown; [| exact E | exact Er]. intros now t.
    apply (booking_stmt_grown now
             (InsertPassenger tripId (Js.trim name) (Js.trim phone) gender_)).
Qed.

Lemma bookTrip_grown (data : DBBooking.BookTripData) (st st' : State)
  (r : Outcome DBBooking.TripBooking) (db : Database) :
  _db st = Some db ->
  DBBooking.bookTrip data st = (st', r) ->
  exists db', _db st' = Some db' /\ grown 1 1 1 (tables db) (tables db').
Proof.
  intros E Eb. unfold DBBooking.bookTrip in Eb.
  apply bind_inv in Eb as [(s1 & did & Eu & Eb) | (e & Eu & _)].
  2:{ destruct (upsertDriver_grown _ _ _ _ _ _ _ E Eu) as (db1 & E1 & G1).
      exists db1. split; [exact E1 |].
      eapply grown_weaken; [| | | exact G1]; lia. }
  destruct (upsertDriver_grown _ _ _ _ _ _ _ E Eu) as (db1 & E1 & G1).
  unfold DBBooking.getTripByBookingCode in Eb.
  unfold bind at 1 in Eb.
  erewrite bind_ok in Eb by (apply query_ready; exact E1).
  unfold ret at 1 in Eb.
  assert (Trip : forall s2 (o : Outcome Z),
             match hd_error (DBBooking.sql_trips_by_booking_code
                               (DBBooking.bookingCode data) (tables db1)) with
             | None =>
                 DBBooking.createTrip (DBBooking.bookingCode data)
                   (DBBooking.routeId data) did (DBBooking.vehicleNo data)
                   (DBBooking.hasAc data)
             | Some row => ret (DBBooking.id row)
             end s1 = (s2, o) ->
             exists db2, _db s2 = Some db2
                         /\ grown 1 1 0 (tables db) (tables db2)).
  { intros s2 o Et.
    destruct (hd_error (DBBooking.sql_trips_by_booking_code
                          (DBBooking.bookingCode data) (tables db1))).
    - unfold ret in Et. inversion Et; subst s2. exists db1.
      split; [exact E1 |]. eapply grown_weaken; [| | | exact G1]; lia.
    - destruct (createTrip_grown _ _ _ _ _ _ _ _ _ E1 Et) as (db2 & E2 & G2).
      exists db2. split; [exact E2 |].
      apply (grown_trans _ _ _ _ _ _ _ _ _ G1 G2). }
  apply bind_inv in Eb as [(s2 & tripId & Et & Eb) | (e & Et & _)].
  2:{ destruct (Trip _ _ Et) as (db2 & E2 & G2).
      exists db2. split; [exact E2 |].
      eapply grown_weaken; [| | | exact G2]; lia. }
  destruct (Trip _ _ Et) as (db2 & E2 & G2).
  assert (Book : forall s3 (o : Outcome DBBooking.PassengerBooking),
             DBBooking.bookPassenger tripId (DBBooking.passengerName data)
               (DBBooking.passengerPhone data) (DBBooking.gender data) s2
             = (s3, o) ->
             exists db3, _db s3 = Some db3
                         /\ grown 1 1 1 (tables db) (tables db3)).
  { intros s3 o Ep.
    destruct (bookPassenger_grown _ _ _ _ _ _ _ _ E2 Ep) as (db3 & E3 & G3).
    exists db3. split; [exact E3 |].
    apply (grown_trans _ _ _ _ _ _ _ _ _ G2 G3). }
  apply bind_inv in Eb as [(s3 & booking & Ep & Eb) | (e & Ep & _)];
    [| exact (Book _ _ Ep)].
  destruct (Book _ _ Ep) as (db3 & E3 & G3).
  destruct booking as [pid | reason msg].
  - unfold DBBooking.getSeatsRemaining in Eb. unfold bind at 1 in Eb.
    erewrite bind_ok in Eb by (apply query_ready; exact E3).
    unfold ret in Eb. inversion Eb; subst s3. eauto.
  - unfold ret in Eb. inversion Eb; subst s3. eauto.
Qed.

End BookingFrame.

(** X17: whatever the outcome of [bookTrip] on a loaded database (booked,
    vehicle full, or an error half-way), nothing is taken away: places,
    vehicles and routes are untouched; the trips and the passengers of
    before are there unchanged and in the same order, with at most one
    trip and one passenger added after them; the drivers of before keep
    their ids and phones, and at most one driver is added. *)
Theorem bookTrip_only_adds `{Schema} (data : DBBooking.BookTripData)
  (st st' : State) (r : Outcome DBBooking.TripBooking) (db : Database) :
  _db st = Some db ->
  DBBooking.bookTrip data st = (st', r) ->
  exists db' newd newt newp,
    _db st' = Some db'
    /\ places (tables db') = places (tables db)
    /\ vehicles (tables db') = vehicles (tables db)
    /\ routes (tables db') = routes (tables db)
    /\ map driver_key (drivers (tables db'))
       = (map driver_key (drivers (tables db)) ++ map driver_key newd)%list
    /\ (List.length newd <= 1)%nat
    /\ trips (tables db') = (trips (tables db) ++ newt)%list
    /\ (List.length newt <= 1)%nat
    /\ passengers (tables db') = (passengers (tables db) ++ newp)%list
    /\ (List.length newp <= 1)%nat.
Proof.
  intros E Eb.
  destruct (bookTrip_grown _ _ _ _ _ E Eb)
    as (db' & E' & P & V & R & (nd & Dk & Ld) & (nt & Tk & Lt)
        & (np & Pk & Lp)).
  exists db', nd, nt, np. auto 12.
Qed.

Lemma bookTrip_only_adds_witness :
  exists db' newd newt newp,
    _db Sample.full = Some db'
    /\ places (tables db') = places (tables Sample.booked_db)
    /\ vehicles (tables db') = vehicles (tables Sample.booked_db)
    /\ routes (tables db') = routes (tables Sample.booked_db)
    /\ map driver_key (drivers (tables db'))
       = (map driver_key (drivers (tables Sample.booked_db))
            ++ map driver_key newd)%list
    /\ (List.length newd <= 1)%nat
    /\ trips (tables db') = (trips (tables Sample.booked_db) ++ newt)%list
    /\ (List.length newt <= 1)%nat
    /\ passengers (tables db')
       = (passengers (tables Sample.booked_db) ++ newp)%list
    /\ (List.length newp <= 1)%nat.
Proof.
  apply (@bookTrip_only_adds Sample.no_constraints (Sample.booking "Bola")
           Sample.booked Sample.full
           (snd (@DBBooking.bookTrip Sample.no_constraints
                   (Sample.booking "Bola") Sample.booked))
           Sample.booked_db);
    vm_compute; reflexivity.
Defined.

(* ------------------------------------------------------------------------ *)
(** * Further properties: one route and the list of routes *)

(** The join restricted to the route of an id is the join of all routes,
    restricted to the rows of that id. *)
Lemma joined_routes_by_id (id_ : Z) (t : Tables) :
  DBConfig.joined_routes (fun r => route_id r =? id_) t
  = filter (fun row => DBConfig.row_id row =? id_)
      (DBConfig.joined_routes (fun _ => true) t).
Proof.
  unfold DBConfig.joined_routes.
  rewrite (filter_all (fun _ : Route => true)) by reflexivity.
  induction (routes t) as [| a l IH]; [reflexivity |].
  cbn [filter flat_map]. rewrite filter_app, <- IH.
  destruct (route_id a =? id_) eqn:Ea; cbn [flat_map].
  - f_equal. symmetry.
    apply (filter_all (fun row => DBConfig.row_id row =? id_)).
    intros row Hrow.
    apply in_flat_map in Hrow as (dep & _ & Hrow).
    apply in_flat_map in Hrow as (dest & _ & Hrow).
    apply in_map_iff in Hrow as (v & <- & _). exact Ea.
  - rewrite (filter_none (fun row => DBConfig.row_id row =? id_));
      [reflexivity |].
    intros row Hrow.
    apply in_flat_map in Hrow as (dep & _ & Hrow).
    apply in_flat_map in Hrow as (dest & _ & Hrow).
    apply in_map_iff in Hrow as (v & <- & _). exact Ea.
Qed.

(** X18: with a database loaded, [getRoute] agrees with [getRoutes]: the
    row it returns for an id is one of the rows [getRoutes] lists and
    carries that id, and it returns [null] only when no listed row carries
    the id. *)
Theorem getRoute_agrees_with_getRoutes (id_ : Z) (st : State)
  (db : Database) :
  _db st = Some db ->
  exists rows found,
    DBConfig.getRoutes st = (st, Ok rows)
    /\ DBConfig.getRoute id_ st = (st, Ok found)
    /\ match found with
       | Some row => In row rows /\ DBConfig.row_id row = id_
       | None => forall row, In row rows -> DBConfig.row_id row <> id_
       end.
Proof.
  intros E. eexists. eexists. split; [| split].
  - unfold DBConfig.getRoutes. apply query_ready. exact E.
  - unfold DBConfig.getRoute.
    erewrite bind_ok by (apply query_ready; exact E). reflexivity.
  - assert (P : Permutation
                  (DBConfig.order_rows
                     (DBConfig.joined_routes (fun _ => true) (tables db)))
                  (DBConfig.joined_routes (fun _ => true) (tables db))).
    { unfold DBConfig.order_rows.
      induction (DBConfig.joined_routes (fun _ => true) (tables db))
        as [| x l IH]; simpl; [reflexivity |].
      rewrite insert_row_perm. constructor. exact IH. }
    rewrite joined_routes_by_id.
    destruct (filter (fun row => DBConfig.row_id row =? id_)
                (DBConfig.joined_routes (fun _ => true) (tables db)))
      as [| row rest] eqn:Ef; simpl.
    + intros row Hrow Eid.
      assert (Hin : In row (filter (fun row => DBConfig.row_id row =? id_)
                              (DBConfig.joined_routes (fun _ => true)
                                 (tables db)))).
      { apply filter_In. split.
        - eapply Permutation_in; [exact P | exact Hrow].
        - apply Z.eqb_eq. exact Eid. }
      rewrite Ef in Hin. destruct Hin.
    + assert (Hin : In row (filter (fun row => DBConfig.row_id row =? id_)
                              (DBConfig.joined_routes (fun _ => true)
                                 (tables db))))
        by (rewrite Ef; left; reflexivity).
      apply filter_In in Hin as [Hin Eid]. split.
      * eapply Permutation_in; [symmetry; exact P | exact Hin].
      * apply Z.eqb_eq. exact Eid.
Qed.

Lemma getRoute_agrees_with_getRoutes_witness :
  exists rows found,
    DBConfig.getRoutes Sample.saved_twice = (Sample.saved_twice, Ok rows)
    /\ DBConfig.getRoute 2 Sample.saved_twice = (Sample.saved_twice, Ok found)
    /\ match found with
       | Some row => In row rows /\ DBConfig.row_id row = 2
       | None => forall row, In row rows -> DBConfig.row_id row <> 2
       end.
Proof.
  apply (getRoute_agrees_with_getRoutes 2 Sample.saved_twice
           Sample.saved_twice_db).
  vm_compute. reflexivity.
Defined.
